(** * QrScanner: a shallow embedding of the scanner session of [dist/main.js]

    The bundle [dist/main.js] contains the class [QrScanner]: a session bound
    to a [<video>] element that acquires a camera stream, runs a
    self-rescheduling scan loop driven by [requestAnimationFrame], and hands
    decode results and errors to the caller's callbacks.

    The class is written against the host's event loop.  It is embedded here
    as a transition system:
    - the fields of [this], of [this.$video] and the host-side queues
      (timers, animation-frame callbacks, decode requests in flight, pending
      camera negotiations) form a [World];
    - every method is a function [World -> World] that follows the body of
      the JavaScript method statement by statement;
    - every observable action (a call of a caller callback, a
      [getUserMedia] request, [track.stop()], ...) is appended to a trace;
      what a call does to the video element or to the timer table is read
      from those instead;
    - what the host does (an animation frame, a settled promise, time
      passing, a visibility change) is an [event], and [step] dispatches it
      to the handler the source registers for it. *)

From Stdlib Require Import Bool Arith List String Ascii ZArith QArith Qround Lia Lqa.
Import ListNotations.

Local Open Scope string_scope.
Local Open Scope nat_scope.
Local Open Scope list_scope.

(** ** JavaScript values, strings and errors *)

Module Js.

(** The values a caller can pass where the constructor expects a callback
    or a number.  [JsFunction f] is the caller's function number [f];
    [JsOther] stands for every value that is neither [undefined], nor a
    number, nor callable ([null], a string, an object). *)
Inductive value : Type :=
| JsUndefined
| JsNumber (q : Q)
| JsFunction (f : nat)
| JsOther.

(** [typeof v === 'number'] *)
Definition typeof_number (v : value) : bool :=
  match v with JsNumber _ => true | _ => false end.

(** What a promise of the scan loop is rejected with: a string
    ([scanImage] rejects with strings) or an [Error]-like object, of which
    only the [message] is kept. *)
Inductive error : Type :=
| ErrString (s : string)
| ErrObject (message : string).

Definition error_eqb (a b : error) : bool :=
  match a, b with
  | ErrString s, ErrString t => String.eqb s t
  | ErrObject s, ErrObject t => String.eqb s t
  | _, _ => false
  end.

(** [hay.indexOf(needle) !== -1] *)
Fixpoint includes (needle hay : string) : bool :=
  String.prefix needle hay
  || match hay with
     | EmptyString => false
     | String _ rest => includes needle rest
     end.

Definition lower_ascii (c : ascii) : ascii :=
  let n := nat_of_ascii c in
  if (65 <=? n) && (n <=? 90) then ascii_of_nat (n + 32) else c.

Fixpoint lowercase (s : string) : string :=
  match s with
  | EmptyString => EmptyString
  | String c rest => String (lower_ascii c) (lowercase rest)
  end.

(** [/a|b|c/i.test(s)] for alternatives written in lower case. *)
Definition test_i (alternatives : list string) (s : string) : bool :=
  existsb (fun alt => includes alt (lowercase s)) alternatives.

(** Truthiness of a string: every string but the empty one. *)
Definition truthy (s : string) : bool :=
  match s with EmptyString => false | _ => true end.

(** [Math.round]: the nearest integer, halves rounded up. *)
Definition Math_round (q : Q) : Z := Qfloor (q + (1 # 2))%Q.

End Js.

(** ** The platform: media streams, constraints, engines *)

Inductive track_kind : Type := VideoTrack | AudioTrack.

Record Track : Type := {
  track_id : nat;
  kind : track_kind;
  label : string
}.

Record MediaStream : Type := {
  stream_id : nat;
  tracks : list Track
}.

Definition getTracks (s : MediaStream) : list Track := tracks s.

Definition getVideoTracks (s : MediaStream) : list Track :=
  filter (fun t => match kind t with VideoTrack => true | AudioTrack => false end)
         (tracks s).

(** The [facingMode] member of a video constraint: a bare string is an ideal
    value, [{ exact: s }] a hard one. *)
Inductive facing_constraint : Type :=
| Ideal (mode : string)
| Exact (mode : string).

(** One element of [constraintsToTry]: [{ width: { min }, facingMode }], both
    members optional. *)
Record Constraint : Type := {
  width_min : option Z;
  facingMode : option facing_constraint
}.

(** The decode engine a session holds in [_qrEnginePromise]: a native
    [BarcodeDetector] or a [Worker]; the number tells instances apart. *)
Inductive QrEngine : Type :=
| NativeDetector (id : nat)
| WorkerEngine (id : nat).

Module Rect.
Record t : Type := { x : Q; y : Q; width : Q; height : Q }.
End Rect.

Record Canvas : Type := { canvas_width : Q; canvas_height : Q }.

(** What the page offers; nothing in the class writes to it.
    - [mediaDevices]: [navigator.mediaDevices], absent or the answer of
      [getUserMedia({ video: c })] for each [c] ([None]: the promise rejects);
    - [barcodeDetector]: absent, or the list [getSupportedFormats()]
      resolves to;
    - [imageCapture]: ['ImageCapture' in window];
    - [protocol]: [window.location.protocol]. *)
Record Platform : Type := {
  mediaDevices : option (Constraint -> option MediaStream);
  barcodeDetector : option (list string);
  imageCapture : bool;
  protocol : string
}.

(** ** Observable actions *)

Inductive effect : Type :=
| ConsoleWarn (v : Js.error)
| ConsoleLog (e : Js.error)
| CallOnDecode (f : nat) (payload : string)
| CallOnDecodeError (f : nat) (e : Js.error)
| GetUserMedia (c : Constraint)
| TrackStop (t : nat)
| RequestAnimationFrame
| ScanImage (engine : QrEngine) (rect : Rect.t)
| NewBarcodeDetector (id : nat)
| NewWorker (id : nat) (path : string)
| PostMessage (worker : nat) (type : string)
| ApplyTorch (t : nat) (on : bool)
| StartRejected (e : Js.error).

(** ** The state *)

(** [this._onDecodeError]: the prototype method (nothing assigned on the
    instance, or the bound default) or the value the constructor
    installed. *)
Inductive error_handler : Type :=
| DefaultHandler
| InstalledHandler (v : Js.value).

Record Scanner : Type := {
  _onDecode : Js.value;
  _onDecodeError : error_handler;
  _preferredFacingMode : string;
  _active : bool;
  _paused : bool;
  _flashOn : bool;
  _offTimeout : option nat;
  _sourceRect : Rect.t;
  canvas : Canvas;
  _qrEnginePromise : QrEngine
}.

Record Video : Type := {
  srcObject : option MediaStream;
  paused : bool;
  ended : bool;
  readyState : Z;
  videoWidth : Z;
  videoHeight : Z;
  style_transform : string
}.

(** A decode request in flight: the engine and rectangle [scanImage] was
    called with. *)
Record Request : Type := { req_engine : QrEngine; req_rect : Rect.t }.

(** Host-side state.
    - [now]: the clock, in milliseconds;
    - [timers]: pending [setTimeout] handles with the time they are due; the
      only callback the session ever registers is the release closure of
      [pause()];
    - [raf]: animation-frame callbacks requested and not yet run;
    - [inflight]: decode requests not yet settled, oldest first;
    - [acquiring]: camera negotiations begun by [start()] and not yet
      settled, each with the [facingMode] it started from;
    - [stopped]: tracks on which [stop()] has been called;
    - [listening]: the three listeners of the constructor are attached;
    - [hidden]: [document.hidden]. *)
Record Host : Type := {
  now : nat;
  timers : list (nat * nat);
  next_timer : nat;
  raf : nat;
  inflight : list Request;
  acquiring : list string;
  stopped : list nat;
  next_engine : nat;
  listening : bool;
  hidden : bool;
  trace : list effect
}.

Record World : Type := {
  scanner : Scanner;
  video : Video;
  host : Host;
  platform : Platform
}.

(** ** Field updates *)

Definition with_scanner (f : Scanner -> Scanner) (w : World) : World :=
  {| scanner := f (scanner w); video := video w; host := host w;
     platform := platform w |}.

Definition with_video (f : Video -> Video) (w : World) : World :=
  {| scanner := scanner w; video := f (video w); host := host w;
     platform := platform w |}.

Definition with_host (f : Host -> Host) (w : World) : World :=
  {| scanner := scanner w; video := video w; host := f (host w);
     platform := platform w |}.

Definition set_active (b : bool) (s : Scanner) : Scanner :=
  {| _onDecode := _onDecode s; _onDecodeError := _onDecodeError s;
     _preferredFacingMode := _preferredFacingMode s;
     _active := b; _paused := _paused s; _flashOn := _flashOn s;
     _offTimeout := _offTimeout s; _sourceRect := _sourceRect s;
     canvas := canvas s; _qrEnginePromise := _qrEnginePromise s |}.

Definition set_paused (b : bool) (s : Scanner) : Scanner :=
  {| _onDecode := _onDecode s; _onDecodeError := _onDecodeError s;
     _preferredFacingMode := _preferredFacingMode s;
     _active := _active s; _paused := b; _flashOn := _flashOn s;
     _offTimeout := _offTimeout s; _sourceRect := _sourceRect s;
     canvas := canvas s; _qrEnginePromise := _qrEnginePromise s |}.

Definition set_flashOn (b : bool) (s : Scanner) : Scanner :=
  {| _onDecode := _onDecode s; _onDecodeError := _onDecodeError s;
     _preferredFacingMode := _preferredFacingMode s;
     _active := _active s; _paused := _paused s; _flashOn := b;
     _offTimeout := _offTimeout s; _sourceRect := _sourceRect s;
     canvas := canvas s; _qrEnginePromise := _qrEnginePromise s |}.

Definition set_offTimeout (t : option nat) (s : Scanner) : Scanner :=
  {| _onDecode := _onDecode s; _onDecodeError := _onDecodeError s;
     _preferredFacingMode := _preferredFacingMode s;
     _active := _active s; _paused := _paused s; _flashOn := _flashOn s;
     _offTimeout := t; _sourceRect := _sourceRect s;
     canvas := canvas s; _qrEnginePromise := _qrEnginePromise s |}.

Definition set_sourceRect (r : Rect.t) (s : Scanner) : Scanner :=
  {| _onDecode := _onDecode s; _onDecodeError := _onDecodeError s;
     _preferredFacingMode := _preferredFacingMode s;
     _active := _active s; _paused := _paused s; _flashOn := _flashOn s;
     _offTimeout := _offTimeout s; _sourceRect := r;
     canvas := canvas s; _qrEnginePromise := _qrEnginePromise s |}.

Definition set_qrEnginePromise (e : QrEngine) (s : Scanner) : Scanner :=
  {| _onDecode := _onDecode s; _onDecodeError := _onDecodeError s;
     _preferredFacingMode := _preferredFacingMode s;
     _active := _active s; _paused := _paused s; _flashOn := _flashOn s;
     _offTimeout := _offTimeout s; _sourceRect := _sourceRect s;
     canvas := canvas s; _qrEnginePromise := e |}.

Definition set_srcObject (o : option MediaStream) (v : Video) : Video :=
  {| srcObject := o; paused := paused v; ended := ended v;
     readyState := readyState v; videoWidth := videoWidth v;
     videoHeight := videoHeight v; style_transform := style_transform v |}.

Definition set_video_paused (b : bool) (v : Video) : Video :=
  {| srcObject := srcObject v; paused := b; ended := ended v;
     readyState := readyState v; videoWidth := videoWidth v;
     videoHeight := videoHeight v; style_transform := style_transform v |}.

Definition set_playback (rs : Z) (e : bool) (v : Video) : Video :=
  {| srcObject := srcObject v; paused := paused v; ended := e;
     readyState := rs; videoWidth := videoWidth v;
     videoHeight := videoHeight v; style_transform := style_transform v |}.

Definition set_dimensions (vw vh : Z) (v : Video) : Video :=
  {| srcObject := srcObject v; paused := paused v; ended := ended v;
     readyState := readyState v; videoWidth := vw;
     videoHeight := vh; style_transform := style_transform v |}.

Definition set_transform (t : string) (v : Video) : Video :=
  {| srcObject := srcObject v; paused := paused v; ended := ended v;
     readyState := readyState v; videoWidth := videoWidth v;
     videoHeight := videoHeight v; style_transform := t |}.

Definition set_now (n : nat) (h : Host) : Host :=
  {| now := n; timers := timers h; next_timer := next_timer h; raf := raf h;
     inflight := inflight h; acquiring := acquiring h; stopped := stopped h;
     next_engine := next_engine h; listening := listening h;
     hidden := hidden h; trace := trace h |}.

Definition set_timers (ts : list (nat * nat)) (h : Host) : Host :=
  {| now := now h; timers := ts; next_timer := next_timer h; raf := raf h;
     inflight := inflight h; acquiring := acquiring h; stopped := stopped h;
     next_engine := next_engine h; listening := listening h;
     hidden := hidden h; trace := trace h |}.

Definition set_next_timer (n : nat) (h : Host) : Host :=
  {| now := now h; timers := timers h; next_timer := n; raf := raf h;
     inflight := inflight h; acquiring := acquiring h; stopped := stopped h;
     next_engine := next_engine h; listening := listening h;
     hidden := hidden h; trace := trace h |}.

Definition set_raf (n : nat) (h : Host) : Host :=
  {| now := now h; timers := timers h; next_timer := next_timer h; raf := n;
     inflight := inflight h; acquiring := acquiring h; stopped := stopped h;
     next_engine := next_engine h; listening := listening h;
     hidden := hidden h; trace := trace h |}.

Definition set_inflight (l : list Request) (h : Host) : Host :=
  {| now := now h; timers := timers h; next_timer := next_timer h;
     raf := raf h; inflight := l; acquiring := acquiring h;
     stopped := stopped h; next_engine := next_engine h;
     listening := listening h; hidden := hidden h; trace := trace h |}.

Definition set_acquiring (l : list string) (h : Host) : Host :=
  {| now := now h; timers := timers h; next_timer := next_timer h;
     raf := raf h; inflight := inflight h; acquiring := l;
     stopped := stopped h; next_engine := next_engine h;
     listening := listening h; hidden := hidden h; trace := trace h |}.

Definition set_stopped (l : list nat) (h : Host) : Host :=
  {| now := now h; timers := timers h; next_timer := next_timer h;
     raf := raf h; inflight := inflight h; acquiring := acquiring h;
     stopped := l; next_engine := next_engine h;
     listening := listening h; hidden := hidden h; trace := trace h |}.

Definition set_next_engine (n : nat) (h : Host) : Host :=
  {| now := now h; timers := timers h; next_timer := next_timer h;
     raf := raf h; inflight := inflight h; acquiring := acquiring h;
     stopped := stopped h; next_engine := n;
     listening := listening h; hidden := hidden h; trace := trace h |}.

Definition set_listening (b : bool) (h : Host) : Host :=
  {| now := now h; timers := timers h; next_timer := next_timer h;
     raf := raf h; inflight := inflight h; acquiring := acquiring h;
     stopped := stopped h; next_engine := next_engine h;
     listening := b; hidden := hidden h; trace := trace h |}.

Definition set_hidden (b : bool) (h : Host) : Host :=
  {| now := now h; timers := timers h; next_timer := next_timer h;
     raf := raf h; inflight := inflight h; acquiring := acquiring h;
     stopped := stopped h; next_engine := next_engine h;
     listening := listening h; hidden := b; trace := trace h |}.

Definition set_trace (t : list effect) (h : Host) : Host :=
  {| now := now h; timers := timers h; next_timer := next_timer h;
     raf := raf h; inflight := inflight h; acquiring := acquiring h;
     stopped := stopped h; next_engine := next_engine h;
     listening := listening h; hidden := hidden h; trace := t |}.

Definition log (e : effect) (w : World) : World :=
  with_host (fun h => set_trace (trace h ++ [e]) h) w.

Definition log_all (es : list effect) (w : World) : World :=
  with_host (fun h => set_trace (trace h ++ es) h) w.

Definition hlog (e : effect) (h : Host) : Host := set_trace (trace h ++ [e]) h.

(** ** The class [QrScanner] *)

Module QrScanner.

Definition DEFAULT_CANVAS_SIZE : Q := 400.
Definition NO_QR_CODE_FOUND : string := "No QR code found".
Definition WORKER_PATH : string := "qr-scanner-worker.min.js".

(** [static createQrEngine(workerPath)]: asks [BarcodeDetector] for its
    supported formats when the class exists (the empty list otherwise) and
    builds a detector when ['qr_code'] is among them, a worker
    otherwise.  Every call builds a new object. *)
Definition createQrEngine (pf : Platform) (workerPath : string) (h : Host)
  : QrEngine * Host :=
  let supportedFormats :=
    match barcodeDetector pf with Some formats => formats | None => [] end in
  let id := next_engine h in
  let h := set_next_engine (S id) h in
  if existsb (String.eqb "qr_code") supportedFormats
  then (NativeDetector id, hlog (NewBarcodeDetector id) h)
  else (WorkerEngine id, hlog (NewWorker id workerPath) h).

(** [constructor(video, onDecode, canvasSizeOrOnDecodeError, canvasSize,
    preferredFacingMode)].  [None] for the last two parameters is an
    omitted argument, replaced by the default; an [undefined] third
    argument is replaced by the bound prototype method.  [v] is the video
    element as the caller passes it and [doc_hidden] the value of
    [document.hidden]; the flags the constructor sets on the element
    ([playsInline], [muted], [disablePictureInPicture]) are read by no
    method and are left out. *)
Definition construct (pf : Platform) (v : Video) (doc_hidden : bool)
    (onDecode canvasSizeOrOnDecodeError : Js.value)
    (canvasSize : option Q) (preferredFacingMode : option string) : World :=
  let canvasSize :=
    match canvasSize with Some c => c | None => DEFAULT_CANVAS_SIZE end in
  let preferredFacingMode :=
    match preferredFacingMode with Some m => m | None => "environment" end in
  let h := {| now := 0; timers := []; next_timer := 1; raf := 0;
              inflight := []; acquiring := []; stopped := [];
              next_engine := 0; listening := false; hidden := doc_hidden;
              trace := [] |} in
  let '(canvasSize, handler, h) :=
    match canvasSizeOrOnDecodeError with
    | Js.JsNumber n =>
        (* legacy function signature where canvas size is the third argument *)
        (n, DefaultHandler,
         hlog (ConsoleWarn (Js.ErrString
           "You're using a deprecated version of the QrScanner constructor which will be removed in the future")) h)
    | Js.JsUndefined => (canvasSize, DefaultHandler, h)
    | other => (canvasSize, InstalledHandler other, h)
    end in
  let h := set_listening true h in
  let '(engine, h) := createQrEngine pf WORKER_PATH h in
  {| scanner :=
       {| _onDecode := onDecode; _onDecodeError := handler;
          _preferredFacingMode := preferredFacingMode;
          _active := false; _paused := false; _flashOn := false;
          _offTimeout := None;
          _sourceRect := {| Rect.x := 0; Rect.y := 0;
                            Rect.width := canvasSize;
                            Rect.height := canvasSize |};
          canvas := {| canvas_width := canvasSize;
                       canvas_height := canvasSize |};
          _qrEnginePromise := engine |};
     video := v; host := h; platform := pf |}.

Definition isFlashOn (w : World) : bool := _flashOn (scanner w).

(** [_updateSourceRect()] *)
Definition _updateSourceRect (w : World) : World :=
  let vw := videoWidth (video w) in
  let vh := videoHeight (video w) in
  let smallestDimension := Z.min vw vh in
  let sourceRectSize :=
    Js.Math_round (2 / 3 * inject_Z smallestDimension)%Q in
  with_scanner (set_sourceRect
    {| Rect.x := ((inject_Z vw - inject_Z sourceRectSize) / 2)%Q;
       Rect.y := ((inject_Z vh - inject_Z sourceRectSize) / 2)%Q;
       Rect.width := inject_Z sourceRectSize;
       Rect.height := inject_Z sourceRectSize |}) w.

(** [_scanFrame()]: requests one animation frame unless the session is
    inactive or the video is paused or has ended. *)
Definition _scanFrame (w : World) : World :=
  if negb (_active (scanner w)) || paused (video w) || ended (video w)
  then w
  else log RequestAnimationFrame (with_host (fun h => set_raf (S (raf h)) h) w).

(** [_onPlay()] *)
Definition _onPlay (w : World) : World := _scanFrame (_updateSourceRect w).

(** The prototype method [_onDecodeError(error)], the default handler. *)
Definition default_onDecodeError (error : Js.error) (w : World) : World :=
  if Js.error_eqb error (Js.ErrString NO_QR_CODE_FOUND) then w
  else log (ConsoleLog error) w.

(** [clearTimeout(handle)]: [null] and handles no longer pending are
    ignored. *)
Definition clearTimeout (handle : option nat) (w : World) : World :=
  match handle with
  | None => w
  | Some i =>
      with_host (fun h =>
        set_timers (filter (fun t => negb (fst t =? i)) (timers h)) h) w
  end.

(** [setTimeout(release, delay)]: a new handle, due [delay] ms from now. *)
Definition setTimeout (delay : nat) (w : World) : nat * World :=
  let i := next_timer (host w) in
  (i, with_host (fun h =>
        set_next_timer (S i) (set_timers (timers h ++ [(i, now h + delay)]) h)) w).

Definition track_stop (w : World) (t : Track) : World :=
  log (TrackStop (track_id t))
      (with_host (fun h => set_stopped (stopped h ++ [track_id t]) h) w).

(** The closure [pause()] hands to [setTimeout]. *)
Definition release (w : World) : World :=
  let tracks :=
    match srcObject (video w) with Some s => getTracks s | None => [] end in
  let w := fold_left track_stop tracks w in
  let w := with_video (set_srcObject None) w in
  with_scanner (set_offTimeout None) w.

(** [pause()].  The handles [setTimeout] returns are positive, so a handle
    in [_offTimeout] is truthy. *)
Definition pause (w : World) : World :=
  let w := with_scanner (set_paused true) w in
  if negb (_active (scanner w)) then w else
  let w := with_video (set_video_paused true) w in
  match _offTimeout (scanner w) with
  | Some _ => w
  | None =>
      let '(i, w) := setTimeout 300 w in
      with_scanner (set_offTimeout (Some i)) w
  end.

(** [stop()] *)
Definition stop (w : World) : World :=
  with_scanner (set_active false) (pause w).

(** [static _postWorkerMessage(engine, type)] *)
Definition _postWorkerMessage (e : QrEngine) (type : string) (w : World)
  : World :=
  match e with
  | WorkerEngine i => log (PostMessage i type) w
  | NativeDetector _ => w
  end.

(** [destroy()] *)
Definition destroy (w : World) : World :=
  let w := with_host (set_listening false) w in
  let w := stop w in
  _postWorkerMessage (_qrEnginePromise (scanner w)) "close" w.

(** [setInversionMode(inversionMode)] *)
Definition setInversionMode (w : World) : World :=
  _postWorkerMessage (_qrEnginePromise (scanner w)) "inversionMode" w.

(** [start()], up to the point where it either returns a resolved promise
    or begins negotiating a camera stream.  The negotiation touches no
    field of the session until it settles; it is queued in [acquiring] and
    carried out by [start_settled]. *)
Definition start (w : World) : World :=
  if _active (scanner w) && negb (_paused (scanner w)) then w else
  let w :=
    if String.eqb (protocol (platform w)) "https:" then w
    else log (ConsoleWarn (Js.ErrString
           "The camera stream is only accessible if the page is transferred via https.")) w in
  let w := with_scanner (set_active true) w in
  let w := with_scanner (set_paused false) w in
  if hidden (host w) then w else
  let w := clearTimeout (_offTimeout (scanner w)) w in
  let w := with_scanner (set_offTimeout None) w in
  match srcObject (video w) with
  | Some _ => with_video (set_video_paused false) w
  | None =>
      let facingMode := _preferredFacingMode (scanner w) in
      with_host (fun h => set_acquiring (acquiring h ++ [facingMode]) h) w
  end.

(** *** Camera negotiation *)

Inductive result (A : Type) : Type :=
| Ok (a : A)
| Err (e : Js.error).
Arguments Ok {A} a.
Arguments Err {A} e.

Definition CAMERA_NOT_FOUND : Js.error := Js.ErrString "Camera not found.".

(** [_getMatchingCameraStream(constraintsToTry)]: the outcome, and the
    constraints handed to [getUserMedia] on the way, in order. *)
Fixpoint _getMatchingCameraStream
    (md : option (Constraint -> option MediaStream))
    (constraintsToTry : list Constraint)
  : result MediaStream * list Constraint :=
  match md, constraintsToTry with
  | None, _ => (Err CAMERA_NOT_FOUND, [])
  | Some _, [] => (Err CAMERA_NOT_FOUND, [])
  | Some getUserMedia, c :: rest =>
      match getUserMedia c with
      | Some stream => (Ok stream, [c])
      | None =>
          let '(r, requests) := _getMatchingCameraStream md rest in
          (r, c :: requests)
      end
  end.

(** [_getCameraStream(facingMode, exact = false)]; [None] is an omitted
    [facingMode]. *)
Definition _getCameraStream
    (md : option (Constraint -> option MediaStream))
    (mode : option string) (exact : bool)
  : result MediaStream * list Constraint :=
  let constraintsToTry :=
    [ {| width_min := Some 1024%Z; facingMode := None |};
      {| width_min := Some 768%Z; facingMode := None |};
      {| width_min := None; facingMode := None |} ] in
  let constraintsToTry :=
    match mode with
    | Some m =>
        if Js.truthy m then
          let fm := if exact then Exact m else Ideal m in
          map (fun c => {| width_min := width_min c; facingMode := Some fm |})
              constraintsToTry
        else constraintsToTry
    | None => constraintsToTry
    end in
  _getMatchingCameraStream md constraintsToTry.

Definition opposite (mode : string) : string :=
  if String.eqb mode "environment" then "user" else "environment".

(** [_getFacingMode(videoStream)] *)
Definition _getFacingMode (videoStream : MediaStream) : option string :=
  match getVideoTracks videoStream with
  | [] => None
  | videoTrack :: _ =>
      if Js.test_i ["rear"; "back"; "environment"] (label videoTrack)
      then Some "environment"
      else if Js.test_i ["front"; "user"; "face"] (label videoTrack)
      then Some "user"
      else None
  end.

(** [_setVideoMirror(facingMode)] *)
Definition _setVideoMirror (mode : string) (w : World) : World :=
  let scaleFactor := if String.eqb mode "user" then "-1" else "1" in
  with_video (set_transform ("scaleX(" ++ scaleFactor ++ ")")) w.

(** The first two links of the chain in [start()]:
    [_getCameraStream(facingMode, true).catch(() => { facingMode =
    opposite; return _getCameraStream(); })].  Returns the outcome, the
    value of the local [facingMode] afterwards and the requests made. *)
Definition acquire (md : option (Constraint -> option MediaStream))
    (preferred : string) : result MediaStream * string * list Constraint :=
  match _getCameraStream md (Some preferred) true with
  | (Ok stream, requests) => (Ok stream, preferred, requests)
  | (Err _, requests) =>
      let '(r, requests') := _getCameraStream md None false in
      (r, opposite preferred, (requests ++ requests')%list)
  end.

(** The rest of the chain: [.then(stream => ...)] and [.catch(e => ...)],
    run when the oldest pending negotiation settles. *)
Definition start_settled (w : World) : World :=
  match acquiring (host w) with
  | [] => w
  | preferred :: rest =>
      let w := with_host (set_acquiring rest) w in
      let '(r, guess, requests) :=
        acquire (mediaDevices (platform w)) preferred in
      let w := log_all (map GetUserMedia requests) w in
      match r with
      | Ok stream =>
          let mode :=
            match _getFacingMode stream with Some m => m | None => guess end in
          let w := with_video (set_srcObject (Some stream)) w in
          let w := with_video (set_video_paused false) w in
          _setVideoMirror mode w
      | Err e =>
          log (StartRejected e) (with_scanner (set_active false) w)
      end
  end.

(** *** Flash *)

(** What the camera answers to one flash operation:
    [getPhotoCapabilities()] resolves to a [fillLightMode] list or rejects,
    [applyConstraints()] resolves ([None]) or rejects with an error. *)
Record Torch : Type := {
  photoCapabilities : result (list string);
  applyConstraints : option Js.error
}.

Definition first_video_track (w : World) : option Track :=
  match srcObject (video w) with
  | Some s => hd_error (getVideoTracks s)
  | None => None
  end.

(** [hasFlash()] *)
Definition hasFlash (hw : Torch) (w : World) : result bool * World :=
  if negb (imageCapture (platform w)) then (Ok false, w) else
  match first_video_track w with
  | None => (Err (Js.ErrString "Camera not started or not available"), w)
  | Some _ =>
      match photoCapabilities hw with
      | Ok fillLightMode => (Ok (existsb (String.eqb "flash") fillLightMode), w)
      | Err error => (Ok false, log (ConsoleWarn error) w)
      end
  end.

(** [_setFlash(on)].  Between [hasFlash()] and [applyConstraints()] the
    source holds no lock on the stream; the two are taken here in one
    step, so the track [hasFlash()] saw is still there. *)
Definition _setFlash (on : bool) (hw : Torch) (w : World)
  : result unit * World :=
  match hasFlash hw w with
  | (Err e, w) => (Err e, w)
  | (Ok false, w) => (Err (Js.ErrString "No flash available"), w)
  | (Ok true, w) =>
      match first_video_track w with
      | None => (Err (Js.ErrObject "Cannot read properties of null"), w)
      | Some t =>
          let w := log (ApplyTorch (track_id t) on) w in
          match applyConstraints hw with
          | Some e => (Err e, w)
          | None => (Ok tt, with_scanner (set_flashOn on) w)
          end
      end
  end.

Definition toggleFlash (hw : Torch) (w : World) : result unit * World :=
  _setFlash (negb (_flashOn (scanner w))) hw w.

Definition turnFlashOff (hw : Torch) (w : World) : result unit * World :=
  _setFlash false hw w.

Definition turnFlashOn (hw : Torch) (w : World) : result unit * World :=
  _setFlash true hw w.

(** *** The scan loop *)

(** The methods a caller's callback may call before it returns. *)
Inductive api : Type :=
| ApiStart
| ApiStop
| ApiPause
| ApiDestroy
| ApiSetInversionMode.

Definition call (a : api) (w : World) : World :=
  match a with
  | ApiStart => start w
  | ApiStop => stop w
  | ApiPause => pause w
  | ApiDestroy => destroy w
  | ApiSetInversionMode => setInversionMode w
  end.

(** What a caller's callback does when the session invokes it: the
    methods it calls on the session, and whether it throws. *)
Record reaction : Type := { re_calls : list api; re_throws : bool }.

Definition run_reaction (r : reaction) (w : World) : World :=
  fold_left (fun w a => call a w) (re_calls r) w.

(** What a decode request settles to. *)
Inductive outcome : Type :=
| Resolved (payload : string)
| Rejected (error : Js.error).

(** [error.message || error], when the result has an [indexOf] method:
    a string has no [message]; an error object yields its message unless
    that is empty, in which case the object itself is left, which has no
    [indexOf]. *)
Definition error_message (error : Js.error) : option string :=
  match error with
  | Js.ErrString s => Some s
  | Js.ErrObject m => if Js.truthy m then Some m else None
  end.

(** [this._onDecodeError(error)].  The boolean tells whether the call
    threw. *)
Definition invoke_onDecodeError (error : Js.error) (r : reaction) (w : World)
  : World * bool :=
  match _onDecodeError (scanner w) with
  | DefaultHandler => (default_onDecodeError error w, false)
  | InstalledHandler (Js.JsFunction f) =>
      (run_reaction r (log (CallOnDecodeError f error) w), re_throws r)
  | InstalledHandler _ => (w, true)
  end.

(** The rejection handler of the chain in [_scanFrame()]. *)
Definition on_rejected (error : Js.error) (r : reaction) (w : World)
  : World * bool :=
  if negb (_active (scanner w)) then (w, false) else
  match error_message error with
  | None => (w, true)
  | Some errorMessage =>
      let w :=
        if Js.includes "service unavailable" errorMessage then
          (* When the native BarcodeDetector crashed, create a new one *)
          let '(engine, h) := createQrEngine (platform w) WORKER_PATH (host w) in
          with_scanner (set_qrEnginePromise engine) (with_host (fun _ => h) w)
        else w in
      invoke_onDecodeError error r w
  end.

(** The fulfilment handler of the chain: [this._onDecode] itself. *)
Definition on_fulfilled (payload : string) (r : reaction) (w : World)
  : World * bool :=
  match _onDecode (scanner w) with
  | Js.JsFunction f =>
      (run_reaction r (log (CallOnDecode f payload) w), re_throws r)
  | _ => (w, false)
  end.

(** The callback [_scanFrame()] hands to [requestAnimationFrame]. *)
Definition animation_frame (w : World) : World :=
  match raf (host w) with
  | O => w
  | S n =>
      let w := with_host (set_raf n) w in
      if (readyState (video w) <=? 1)%Z then _scanFrame w
      else
        let req := {| req_engine := _qrEnginePromise (scanner w);
                      req_rect := _sourceRect (scanner w) |} in
        log (ScanImage (req_engine req) (req_rect req))
            (with_host (fun h => set_inflight (inflight h ++ [req]) h) w)
  end.

(** The oldest decode request settles:
    [.then(this._onDecode, error => ...).then(() => this._scanFrame())].
    The last link is skipped when the handler before it threw. *)
Definition decode_settled (o : outcome) (r : reaction) (w : World) : World :=
  match inflight (host w) with
  | [] => w
  | _ :: rest =>
      let w := with_host (set_inflight rest) w in
      let '(w, threw) :=
        match o with
        | Resolved payload => on_fulfilled payload r w
        | Rejected error => on_rejected error r w
        end in
      if threw then w else _scanFrame w
  end.

(** [_onVisibilityChange()] *)
Definition _onVisibilityChange (w : World) : World :=
  if hidden (host w) then pause w
  else if _active (scanner w) then start w
  else w.

End QrScanner.

(** ** The host's event loop *)

Inductive flash_op : Type := ToggleFlash | TurnFlashOn | TurnFlashOff.

Inductive event : Type :=
| Call (a : QrScanner.api)
| Flash (op : flash_op) (hw : QrScanner.Torch)
| VisibilityChange (hide : bool)
| LoadedMetadata (vw vh : Z)
| PlayEvent
| Playback (rs : Z) (end_reached : bool)
| AnimationFrame
| DecodeSettled (o : QrScanner.outcome) (r : QrScanner.reaction)
| AcquireSettled
| Elapse (dt : nat).

(** Time passes: the timers that have become due are taken off the table
    and their callbacks run. *)
Definition elapse (dt : nat) (w : World) : World :=
  let w := with_host (fun h => set_now (now h + dt) h) w in
  let due := filter (fun t => snd t <=? now (host w)) (timers (host w)) in
  let w := with_host (fun h =>
             set_timers (filter (fun t => negb (snd t <=? now h)) (timers h)) h) w in
  fold_left (fun w _ => QrScanner.release w) due w.

Definition flash (op : flash_op) (hw : QrScanner.Torch) (w : World)
  : QrScanner.result unit * World :=
  match op with
  | ToggleFlash => QrScanner.toggleFlash hw w
  | TurnFlashOn => QrScanner.turnFlashOn hw w
  | TurnFlashOff => QrScanner.turnFlashOff hw w
  end.

(** One event.  The three listeners of the constructor are called only
    while they are attached. *)
Definition step (w : World) (ev : event) : World :=
  match ev with
  | Call a => QrScanner.call a w
  | Flash op hw => snd (flash op hw w)
  | VisibilityChange hide =>
      let w := with_host (set_hidden hide) w in
      if listening (host w) then QrScanner._onVisibilityChange w else w
  | LoadedMetadata vw vh =>
      let w := with_video (set_dimensions vw vh) w in
      if listening (host w) then QrScanner._updateSourceRect w else w
  | PlayEvent =>
      if listening (host w) then QrScanner._onPlay w else w
  | Playback rs e => with_video (set_playback rs e) w
  | AnimationFrame => QrScanner.animation_frame w
  | DecodeSettled o r => QrScanner.decode_settled o r w
  | AcquireSettled => QrScanner.start_settled w
  | Elapse dt => elapse dt w
  end.

Definition run (w : World) (evs : list event) : World := fold_left step evs w.

(** The value a flash operation asks the torch to take. *)
Definition requested (op : flash_op) (w : World) : bool :=
  match op with
  | ToggleFlash => negb (QrScanner.isFlashOn w)
  | TurnFlashOn => true
  | TurnFlashOff => false
  end.

(** The facing-mode member every candidate of one negotiation carries: none
    when no (or an empty) facing mode is requested, otherwise the requested
    mode, as a hard constraint when [exact] is set. *)
Definition requested_facing (mode : option string) (exact : bool)
  : option facing_constraint :=
  match mode with
  | Some m =>
      if Js.truthy m then Some (if exact then Exact m else Ideal m) else None
  | None => None
  end.

(** The candidate list in the words of the specification: minimum widths
    1024, 768 and none, in this order, each with the requested facing
    mode. *)
Definition spec_candidates (mode : option string) (exact : bool)
  : list Constraint :=
  map (fun min => {| width_min := min; facingMode := requested_facing mode exact |})
      [Some 1024%Z; Some 768%Z; None].

(** The calls of the caller's two callbacks recorded so far. *)
Definition is_callback (e : effect) : bool :=
  match e with
  | CallOnDecode _ _ | CallOnDecodeError _ _ => true
  | _ => false
  end.

Definition callbacks (w : World) : list effect :=
  filter is_callback (trace (host w)).

(** The world with its oldest decode request taken off the queue. *)
Definition dequeue (w : World) : World :=
  with_host (fun h => set_inflight (tl (inflight h)) h) w.

(** The platform advertises the QR symbology: [BarcodeDetector] exists and
    ['qr_code'] is among its supported formats. *)
Definition native_advertised (pf : Platform) : bool :=
  match barcodeDetector pf with
  | Some formats => existsb (String.eqb "qr_code") formats
  | None => false
  end.

(** The engine [createQrEngine] builds on platform [pf] when [n] engines
    have been built before. *)
Definition fresh_engine (pf : Platform) (n : nat) : QrEngine :=
  if native_advertised pf then NativeDetector n else WorkerEngine n.

(** The events at which the session replaces its engine: a decode request
    settles with a rejection whose message contains ['service unavailable']
    while the session is active. *)
Definition replaces_engine (w : World) (ev : event) : bool :=
  match ev with
  | DecodeSettled (QrScanner.Rejected error) _ =>
      match inflight (host w) with
      | [] => false
      | _ :: _ =>
          _active (scanner w)
          && match QrScanner.error_message error with
             | Some m => Js.includes "service unavailable" m
             | None => false
             end
      end
  | _ => false
  end.

(** Nothing has touched the engine between [w] and [w']. *)
Definition engine_kept (w w' : World) : Prop :=
  _qrEnginePromise (scanner w') = _qrEnginePromise (scanner w) /\
  next_engine (host w') = next_engine (host w) /\
  platform w' = platform w.

(** The release timer and its handle agree: either none is pending and
    [_offTimeout] is [null], or exactly one is, [_offTimeout] is its handle
    and it is due at most 300 ms from now. *)
Definition timers_ok (w : World) : bool :=
  match _offTimeout (scanner w), timers (host w) with
  | None, [] => true
  | Some i, [(j, due)] => (i =? j) && (due <=? now (host w) + 300)
  | _, _ => false
  end.

(** Neither the timer table, nor [_offTimeout], nor the clock differ
    between [w] and [w']. *)
Definition timers_kept (w w' : World) : Prop :=
  _offTimeout (scanner w') = _offTimeout (scanner w) /\
  timers (host w') = timers (host w) /\
  now (host w') = now (host w).

(** The worlds a session can be in: built by the constructor, then moved
    by events. *)
Inductive reachable : World -> Prop :=
| reach_construct pf v doc_hidden onDecode third canvasSize mode :
    reachable (QrScanner.construct pf v doc_hidden onDecode third canvasSize mode)
| reach_step w ev : reachable w -> reachable (step w ev).

(** The effects that must not follow a [stop()]: a call of the caller's
    error callback and a request for an animation frame. *)
Definition loud (e : effect) : bool :=
  match e with
  | CallOnDecodeError _ _ | RequestAnimationFrame => true
  | _ => false
  end.

Definition noise (w : World) : list effect := filter loud (trace (host w)).

(** The events through which [start()] can be called on an inactive
    session: the caller calls it, or one of the caller's callbacks does. *)
Definition restarts (ev : event) : bool :=
  match ev with
  | Call QrScanner.ApiStart => true
  | DecodeSettled _ r =>
      existsb (fun a => match a with QrScanner.ApiStart => true | _ => false end)
              (QrScanner.re_calls r)
  | _ => false
  end.

(** [w'] is inactive and has made no more noise than [w]. *)
Definition dormant (w w' : World) : Prop :=
  _active (scanner w') = false /\ noise w' = noise w.

(** ** Pages and sessions used as concrete inputs *)

Module Scenario.
Import QrScanner.

Definition front_camera : MediaStream :=
  {| stream_id := 1;
     tracks := [ {| track_id := 7; kind := VideoTrack; label := "Front Camera" |} ] |}.

Definition back_camera : MediaStream :=
  {| stream_id := 2;
     tracks := [ {| track_id := 8; kind := VideoTrack; label := "camera2 0, facing back" |} ] |}.

(** A device whose only camera faces the user: every request succeeds but
    those that demand another facing mode. *)
Definition user_only (c : Constraint) : option MediaStream :=
  match facingMode c with
  | Some (Exact m) => if String.eqb m "user" then Some front_camera else None
  | _ => Some front_camera
  end.

(** A device with a rear camera that cannot deliver 1024 pixels. *)
Definition low_resolution (c : Constraint) : option MediaStream :=
  match width_min c with
  | Some min => if (min <=? 800)%Z then Some back_camera else None
  | None => Some back_camera
  end.

Definition page (md : option (Constraint -> option MediaStream))
    (formats : option (list string)) : Platform :=
  {| mediaDevices := md; barcodeDetector := formats;
     imageCapture := true; protocol := "https:" |}.

Definition video_element : Video :=
  {| srcObject := None; paused := true; ended := false; readyState := 0%Z;
     videoWidth := 0%Z; videoHeight := 0%Z; style_transform := "" |}.

Definition quiet : reaction := {| re_calls := []; re_throws := false |}.

(** [new QrScanner(videoElem, result => ...)], the first page of the
    bundle. *)
Definition session : World :=
  Eval vm_compute in
  construct (page (Some user_only) None) video_element false
            (Js.JsFunction 1) Js.JsUndefined None None.

(** [new QrScanner(videoElem, result => ..., err => ..., 300,
    "environment")], the second page of the bundle. *)
Definition session_with_error_callback : World :=
  Eval vm_compute in
  construct (page (Some user_only) None) video_element false
            (Js.JsFunction 1) (Js.JsFunction 2) (Some 300%Q) (Some "environment").

(** The first session, started, with its camera attached and playing, and
    one decode request in flight. *)
Definition scanning : World :=
  Eval vm_compute in
  run session
      [Call ApiStart; AcquireSettled; LoadedMetadata 640 480; PlayEvent;
       Playback 4 false; AnimationFrame].

Definition scanning_with_error_callback : World :=
  Eval vm_compute in
  run session_with_error_callback
      [Call ApiStart; AcquireSettled; LoadedMetadata 640 480; PlayEvent;
       Playback 4 false; AnimationFrame].

(** A page whose browser has a [BarcodeDetector] for QR codes. *)
Definition native_scanning : World :=
  Eval vm_compute in
  run (construct (page (Some user_only) (Some ["aztec"; "qr_code"]))
                 video_element false (Js.JsFunction 1) Js.JsUndefined None None)
      [Call ApiStart; AcquireSettled; LoadedMetadata 640 480; PlayEvent;
       Playback 4 false; AnimationFrame].

Definition torch_ok : Torch :=
  {| photoCapabilities := Ok ["off"; "flash"]; applyConstraints := None |}.

End Scenario.

(** ** The static methods *)

Module Static.
Import QrScanner.

(** What a promise is rejected with, or an [error] event carries, as far as
    the handlers of [scanImage] look at it: [undefined], a string, or an
    object with its [message] and the text it becomes in a string
    concatenation. *)
Inductive thrown : Type :=
| ThUndefined
| ThString (s : string)
| ThObject (message text : string).

(** [static hasCamera()].  The argument is [navigator.mediaDevices]: absent,
    or what [enumerateDevices()] settles to, the [kind] of every device. *)
Definition hasCamera (enumerateDevices : option (result (list string)))
  : result bool :=
  match enumerateDevices with
  | None => Ok false
  | Some (Ok devices) =>
      Ok (existsb (fun kind => String.eqb kind "videoinput") devices)
  | Some (Err _) => Ok false
  end.

(** *** Loading an image *)

(** The argument of [_loadImage], by the tests it goes through. *)
Inductive input : Type :=
| InCanvas
| InVideo
| InImageBitmap
| InOffscreenCanvas
| InImage
| InFile
| InBlob
| InURL
| InString
| InOther.

(** [window.ImageBitmap] and [window.OffscreenCanvas] exist. *)
Record Window : Type := {
  has_ImageBitmap : bool;
  has_OffscreenCanvas : bool
}.

(** The image element when [_awaitImageLoad] looks at it, and the event it
    fires afterwards, if any. *)
Record ImageState : Type := { complete : bool; naturalWidth : Z }.

Inductive load_event : Type := LoadFires | ErrorFires | NothingFires.

Inductive url_action : Type := CreateObjectURL | RevokeObjectURL.

(** [static _awaitImageLoad(image)]; [None]: the promise stays pending. *)
Definition _awaitImageLoad (image : ImageState) (ev : load_event)
  : option (result unit) :=
  if complete image && negb (naturalWidth image =? 0)%Z then Some (Ok tt)
  else
    match ev with
    | LoadFires => Some (Ok tt)
    | ErrorFires => Some (Err (Js.ErrString "Image load error"))
    | NothingFires => None
    end.

(** [static _loadImage(imageOrFileOrBlobOrUrl)]: what the promise settles
    to, and the object URLs created and revoked on the way. *)
Definition _loadImage (win : Window) (i : input) (image : ImageState)
    (ev : load_event) : option (result unit) * list url_action :=
  match i with
  | InCanvas | InVideo => (Some (Ok tt), [])
  | InImageBitmap =>
      if has_ImageBitmap win then (Some (Ok tt), [])
      else (Some (Err (Js.ErrString "Unsupported image type.")), [])
  | InOffscreenCanvas =>
      if has_OffscreenCanvas win then (Some (Ok tt), [])
      else (Some (Err (Js.ErrString "Unsupported image type.")), [])
  | InImage => (_awaitImageLoad image ev, [])
  | InFile | InBlob =>
      match _awaitImageLoad image ev with
      | Some (Ok _) => (Some (Ok tt), [CreateObjectURL; RevokeObjectURL])
      | other => (other, [CreateObjectURL])
      end
  | InURL | InString => (_awaitImageLoad image ev, [])
  | InOther => (Some (Err (Js.ErrString "Unsupported image type.")), [])
  end.

(** *** One decode request to a worker *)

(** The promise [scanImage] builds around a worker: its two listeners, the
    time left on its 10 s timeout, and what it has settled to. *)
Record WorkerRequest : Type := {
  wr_message : bool;
  wr_error : bool;
  wr_timeout : option N;
  wr_outcome : option (result string)
}.

Inductive worker_event : Type :=
| WMessage (type : string) (data : option string)
| WError (e : thrown)
| WElapse (dt : N).

(** [resolve]/[reject]: a promise takes the first settlement only. *)
Definition settle (r : result string) (o : option (result string))
  : option (result string) :=
  match o with None => Some r | Some _ => o end.

(** [!e ? 'Unknown Error' : (e.message || e)], as it ends up in the
    concatenation. *)
Definition worker_error_message (e : thrown) : string :=
  match e with
  | ThUndefined => "Unknown Error"
  | ThString s => if Js.truthy s then s else "Unknown Error"
  | ThObject message text => if Js.truthy message then message else text
  end.

(** The request as the executor leaves it: both listeners attached, the
    timeout set, the [decode] message posted. *)
Definition worker_request : WorkerRequest :=
  {| wr_message := true; wr_error := true; wr_timeout := Some 10000%N;
     wr_outcome := None |}.

(** The closure [onMessage]. *)
Definition onMessage (type : string) (data : option string)
    (q : WorkerRequest) : WorkerRequest :=
  if negb (String.eqb type "qrResult") then q
  else
    {| wr_message := false; wr_error := false; wr_timeout := None;
       wr_outcome :=
         settle (match data with
                 | Some d => Ok d
                 | None => Err (Js.ErrString NO_QR_CODE_FOUND)
                 end)
                (wr_outcome q) |}.

(** The closure [onError]. *)
Definition onError (e : thrown) (q : WorkerRequest) : WorkerRequest :=
  {| wr_message := false; wr_error := false; wr_timeout := None;
     wr_outcome :=
       settle (Err (Js.ErrString ("Scanner error: " ++ worker_error_message e)))
              (wr_outcome q) |}.

(** One event at the worker or the clock; an event reaches a closure only
    while its listener is attached, the timeout only while it is set. *)
Definition worker_step (q : WorkerRequest) (ev : worker_event) : WorkerRequest :=
  match ev with
  | WMessage type data => if wr_message q then onMessage type data q else q
  | WError e => if wr_error q then onError e q else q
  | WElapse dt =>
      match wr_timeout q with
      | Some remaining =>
          if (remaining <=? dt)%N then onError (ThString "timeout") q
          else {| wr_message := wr_message q; wr_error := wr_error q;
                  wr_timeout := Some (remaining - dt)%N; wr_outcome := wr_outcome q |}
      | None => q
      end
  end.

Definition worker_run (q : WorkerRequest) (evs : list worker_event)
  : WorkerRequest := fold_left worker_step evs q.

(** *** One decode request to a native detector *)

(** The promise around [qrEngine.detect(canvas)]: the time left on its
    timeout, whether [detect] has settled, and what the promise has settled
    to. *)
Record NativeRequest : Type := {
  nr_timeout : option N;
  nr_detected : bool;
  nr_outcome : option (result string)
}.

Inductive native_event : Type :=
| NDetected (rawValues : list string)
| NFailed (e : thrown)
| NElapse (dt : N).

Definition native_request : NativeRequest :=
  {| nr_timeout := Some 10000%N; nr_detected := false; nr_outcome := None |}.

(** [e.message || e] in [.catch(e => reject('Scanner error: ' + ...))];
    [None]: reading [message] off [undefined] throws. *)
Definition native_error_message (e : thrown) : option string :=
  match e with
  | ThUndefined => None
  | ThString s => Some s
  | ThObject message text => Some (if Js.truthy message then message else text)
  end.

(** [detect] settles once; its handlers run, then [finally] clears the
    timeout.  The timeout, while set, rejects the promise when it fires. *)
Definition native_step (q : NativeRequest) (ev : native_event) : NativeRequest :=
  match ev with
  | NDetected rawValues =>
      if nr_detected q then q
      else
        {| nr_timeout := None; nr_detected := true;
           nr_outcome :=
             settle (match rawValues with
                     | [] => Err (Js.ErrString NO_QR_CODE_FOUND)
                     | rawValue :: _ => Ok rawValue
                     end)
                    (nr_outcome q) |}
  | NFailed e =>
      if nr_detected q then q
      else
        {| nr_timeout := None; nr_detected := true;
           nr_outcome :=
             match native_error_message e with
             | Some m => settle (Err (Js.ErrString ("Scanner error: " ++ m)))
                                (nr_outcome q)
             | None => nr_outcome q
             end |}
  | NElapse dt =>
      match nr_timeout q with
      | Some remaining =>
          if (remaining <=? dt)%N then
            {| nr_timeout := None; nr_detected := nr_detected q;
               nr_outcome :=
                 settle (Err (Js.ErrString "Scanner error: timeout"))
                        (nr_outcome q) |}
          else {| nr_timeout := Some (remaining - dt)%N; nr_detected := nr_detected q;
                  nr_outcome := nr_outcome q |}
      | None => q
      end
  end.

Definition native_run (q : NativeRequest) (evs : list native_event)
  : NativeRequest := fold_left native_step evs q.

(** *** [scanImage] *)

(** What happens around one pass through the body of [scanImage]: the
    image and its load event, whether [_drawToCanvas] throws (and the
    message of the exception), and the events that follow the decode
    request.  [getImageData] and [detect] are taken to return. *)
Record Environment : Type := {
  env_window : Window;
  env_image : ImageState;
  env_load : load_event;
  env_draw : option string;
  env_worker : list worker_event;
  env_native : list native_event
}.

(** [qrEngine instanceof Worker] *)
Definition is_Worker (qrEngine : option QrEngine) : bool :=
  match qrEngine with Some (WorkerEngine _) => true | _ => false end.

(** [Promise.all([qrEngine || createQrEngine(), _loadImage(...)]).then(...)]:
    what the promise settles to ([None]: it stays pending), the value of
    the variable [qrEngine] afterwards, and the host with the engines built
    and the messages posted. *)
Definition attempt (pf : Platform) (i : input) (qrEngine : option QrEngine)
    (gotExternalWorker : bool) (env : Environment) (h : Host)
  : option (result string) * option QrEngine * Host :=
  let '(engine, h) :=
    match qrEngine with
    | Some e => (e, h)
    | None => createQrEngine pf WORKER_PATH h
    end in
  match fst (_loadImage (env_window env) i (env_image env) (env_load env)) with
  | None => (None, qrEngine, h)
  | Some (Err e) => (Some (Err e), qrEngine, h)
  | Some (Ok _) =>
      match env_draw env with
      | Some message => (Some (Err (Js.ErrObject message)), Some engine, h)
      | None =>
          match engine with
          | WorkerEngine w =>
              let h :=
                if gotExternalWorker then h
                else hlog (PostMessage w "inversionMode") h in
              let h := hlog (PostMessage w "decode") h in
              (wr_outcome (worker_run worker_request (env_worker env)),
               Some engine, h)
          | NativeDetector _ =>
              (nr_outcome (native_run native_request (env_native env)),
               Some engine, h)
          end
      end
  end.

(** [promise.finally(() => { if (gotExternalWorker) return;
    _postWorkerMessage(qrEngine, 'close'); })] *)
Definition finally_close (gotExternalWorker : bool) (qrEngine : option QrEngine)
    (r : option (result string)) (h : Host) : Host :=
  match r with
  | None => h
  | Some _ =>
      if gotExternalWorker then h
      else
        match qrEngine with
        | Some (WorkerEngine w) => hlog (PostMessage w "close") h
        | _ => h
        end
  end.

(** [scanImage] called without a source rectangle or without
    [alsoTryWithoutSourceRect]: the call the fallback makes. *)
Definition scanImage_once (pf : Platform) (i : input)
    (qrEngine : option QrEngine) (env : Environment) (h : Host)
  : option (result string) * Host :=
  let gotExternalWorker := is_Worker qrEngine in
  let '(r, qrEngine, h) := attempt pf i qrEngine gotExternalWorker env h in
  (r, finally_close gotExternalWorker qrEngine r h).

(** [static scanImage(imageOrFileOrUrl, sourceRect, qrEngine, canvas,
    fixedCanvasSize, alsoTryWithoutSourceRect)].  [first] is what happens
    around the call itself, [second] around the call its [catch] makes.
    The canvas only carries pixels from [_drawToCanvas] to the engine and
    is left out. *)
Definition scanImage (pf : Platform) (i : input) (sourceRect : option Rect.t)
    (qrEngine : option QrEngine) (alsoTryWithoutSourceRect : bool)
    (first second : Environment) (h : Host)
  : option (result string) * Host :=
  let gotExternalWorker := is_Worker qrEngine in
  let '(r, qrEngine, h) := attempt pf i qrEngine gotExternalWorker first h in
  let '(r, h) :=
    match sourceRect, alsoTryWithoutSourceRect, r with
    | Some _, true, Some (Err _) => scanImage_once pf i qrEngine second h
    | _, _, _ => (r, h)
    end in
  (r, finally_close gotExternalWorker qrEngine r h).

End Static.

(** ** Measures on the scan loop *)

(** The chains of the scan loop that are alive: frames requested and not
    yet run, and decode requests in flight. *)
Definition chains (w : World) : nat :=
  raf (host w) + List.length (inflight (host w)).

Definition is_play (ev : event) : bool :=
  match ev with PlayEvent => true | _ => false end.

(** The [play] events among [evs]. *)
Definition plays (evs : list event) : nat := List.length (filter is_play evs).

(** The effects through which the scan loop works. *)
Definition is_scan (e : effect) : bool :=
  match e with
  | RequestAnimationFrame | ScanImage _ _ => true
  | _ => false
  end.

Definition scans (w : World) : list effect := filter is_scan (trace (host w)).

Definition is_flash (ev : event) : bool :=
  match ev with Flash _ _ => true | _ => false end.

Definition is_elapse (ev : event) : bool :=
  match ev with Elapse _ => true | _ => false end.

(** [w'] has the frames, the requests in flight and the scan effects of
    [w], and no listener that [w] has not. *)
Definition offloop (w w' : World) : Prop :=
  raf (host w') = raf (host w) /\
  inflight (host w') = inflight (host w) /\
  scans w' = scans w /\
  (listening (host w) = false -> listening (host w') = false).


(** Neither the cached flash state, nor the tracks stopped, nor the stream
    attached differ between [w] and [w']. *)
Definition camera_kept (w w' : World) : Prop :=
  _flashOn (scanner w') = _flashOn (scanner w) /\
  stopped (host w') = stopped (host w) /\
  srcObject (video w') = srcObject (video w).

(** The time the events of a request let pass. *)
Definition worker_elapsed (evs : list Static.worker_event) : N :=
  fold_right (fun ev acc =>
                match ev with Static.WElapse dt => (dt + acc)%N | _ => acc end)
             0%N evs.

Definition native_elapsed (evs : list Static.native_event) : N :=
  fold_right (fun ev acc =>
                match ev with Static.NElapse dt => (dt + acc)%N | _ => acc end)
             0%N evs.


(** The rejections of one decode request. *)
Definition request_error (e : Js.error) : Prop :=
  e = Js.ErrString QrScanner.NO_QR_CODE_FOUND \/
  (exists m, e = Js.ErrString ("Scanner error: " ++ m)).

(** ** Scenarios for the static methods *)

Module Snapshot.
Import QrScanner Static.

Definition window : Window :=
  {| has_ImageBitmap := true; has_OffscreenCanvas := true |}.

Definition loaded_image : ImageState := {| complete := true; naturalWidth := 200 |}.

(** The image is there, the drawing succeeds, the engine finds no code. *)
Definition no_code : Environment :=
  {| env_window := window; env_image := loaded_image; env_load := LoadFires;
     env_draw := None;
     env_worker := [WMessage "qrResult" None];
     env_native := [NDetected []] |}.

(** The engine finds a code. *)
Definition code_found : Environment :=
  {| env_window := window; env_image := loaded_image; env_load := LoadFires;
     env_draw := None;
     env_worker := [WMessage "qrResult" (Some "https://example.org")];
     env_native := [NDetected ["https://example.org"]] |}.

(** The native detector has crashed. *)
Definition crash : Environment :=
  {| env_window := window; env_image := loaded_image; env_load := LoadFires;
     env_draw := None;
     env_worker := [];
     env_native :=
       [NFailed (ThObject "Barcode detection service unavailable." "NotSupportedError")] |}.

(** A page without [BarcodeDetector], before anything has happened. *)
Definition plain_page : Platform := Scenario.page None None.

Definition fresh_host : Host := Eval vm_compute in host Scenario.session.

(** The first session with its camera attached and playing, before the
    first [play] event. *)
Definition running : World :=
  Eval vm_compute in run Scenario.session [Call ApiStart; AcquireSettled].

(** The request in flight in [Scenario.native_scanning]. *)
Definition oldest_request : Request :=
  Eval vm_compute in
  match inflight (host Scenario.native_scanning) with
  | req :: _ => req
  | [] => {| req_engine := NativeDetector 0; req_rect := {| Rect.x := 0; Rect.y := 0; Rect.width := 0; Rect.height := 0 |} |}
  end.

End Snapshot.

(** * Properties *)

(** ** Rounding *)

Section Rounding.

Lemma Math_round_two_thirds (m : Z) :
  Js.Math_round (2 / 3 * inject_Z m)%Q = ((4 * m + 3) / 6)%Z.
Proof.
  unfold Js.Math_round.
  assert (E : (2 / 3 * inject_Z m + (1 # 2) == (4 * m + 3) # 6)%Q).
  { cbv [Qeq Qplus Qmult Qdiv Qinv inject_Z Qnum Qden]. lia. }
  rewrite E. reflexivity.
Qed.

(** [Math.round(2 / 3 * m)] is the integer nearest to two thirds of [m];
    for an integer [m] the distance is at most one third. *)
Lemma Math_round_nearest (m : Z) :
  (-3 < 6 * Js.Math_round (2 / 3 * inject_Z m)%Q - 4 * m <= 3)%Z.
Proof.
  rewrite Math_round_two_thirds.
  pose proof (Z.div_mod (4 * m + 3) 6 ltac:(lia)).
  pose proof (Z.mod_pos_bound (4 * m + 3) 6 ltac:(lia)).
  lia.
Qed.

(** The source computes [2 / 3 * m] in double precision.  Any error below
    one sixth leaves [Math.round] on the same integer, so for the
    dimensions of a video the exact product stands for the computed
    one. *)
Lemma Math_round_stable (m : Z) (e : Q) :
  (- (1 # 6) < e)%Q -> (e < 1 # 6)%Q ->
  Js.Math_round (2 / 3 * inject_Z m + e)%Q
  = Js.Math_round (2 / 3 * inject_Z m)%Q.
Proof.
  intros Hlo Hhi. rewrite Math_round_two_thirds. unfold Js.Math_round.
  set (s := Qfloor (2 / 3 * inject_Z m + e + (1 # 2))%Q).
  pose proof (Qfloor_le (2 / 3 * inject_Z m + e + (1 # 2))%Q) as Hle.
  pose proof (Qlt_floor (2 / 3 * inject_Z m + e + (1 # 2))%Q) as Hlt.
  fold s in Hle, Hlt. clearbody s. rewrite inject_Z_plus in Hlt.
  assert (T : (2 / 3 == 2 # 3)%Q) by reflexivity.
  rewrite T in Hle, Hlt. clear T.
  change (inject_Z 1) with 1%Q in Hlt.
  assert (U : (inject_Z (6 * s) < inject_Z (4 * m + 4))%Q).
  { rewrite inject_Z_plus, !inject_Z_mult.
    change (inject_Z 6) with 6%Q. change (inject_Z 4) with 4%Q. lra. }
  assert (L : (inject_Z (4 * m) < inject_Z (6 * s + 4))%Q).
  { rewrite inject_Z_plus, !inject_Z_mult.
    change (inject_Z 6) with 6%Q. change (inject_Z 4) with 4%Q. lra. }
  rewrite <- Zlt_Qlt in U, L.
  pose proof (Z.div_mod (4 * m + 3) 6 ltac:(lia)).
  pose proof (Z.mod_pos_bound (4 * m + 3) 6 ltac:(lia)).
  lia.
Qed.

End Rounding.

(** ** The region of interest *)

(** C5.  When the video's metadata load ([loadedmetadata], listener
    attached) reports intrinsic dimensions [vw] x [vh], the recomputed
    region of interest is a square whose side is the integer nearest to two
    thirds of [min vw vh], placed at [x = (vw - side) / 2] and
    [y = (vh - side) / 2] (so the margins on both sides are equal), and the
    side does not exceed [min vw vh]. *)
Theorem C5_source_rect_square_centered (w : World) (vw vh : Z) :
  listening (host w) = true ->
  (0 <= vw)%Z -> (0 <= vh)%Z ->
  let side := Js.Math_round (2 / 3 * inject_Z (Z.min vw vh))%Q in
  let r := _sourceRect (scanner (step w (LoadedMetadata vw vh))) in
  (-3 < 6 * side - 4 * Z.min vw vh <= 3)%Z /\
  Rect.width r = inject_Z side /\
  Rect.height r = inject_Z side /\
  (Rect.x r == (inject_Z vw - inject_Z side) / 2)%Q /\
  (Rect.y r == (inject_Z vh - inject_Z side) / 2)%Q /\
  (Rect.x r + Rect.width r + Rect.x r == inject_Z vw)%Q /\
  (Rect.y r + Rect.height r + Rect.y r == inject_Z vh)%Q /\
  (0 <= side <= Z.min vw vh)%Z.
Proof.
  intros Hl Hw Hh side r.
  pose proof (Math_round_nearest (Z.min vw vh)) as Hn. fold side in Hn.
  assert (Hr : r = {| Rect.x := ((inject_Z vw - inject_Z side) / 2)%Q;
                      Rect.y := ((inject_Z vh - inject_Z side) / 2)%Q;
                      Rect.width := inject_Z side;
                      Rect.height := inject_Z side |}).
  { subst r. cbn. rewrite Hl. reflexivity. }
  rewrite Hr. cbn [Rect.x Rect.y Rect.width Rect.height].
  repeat split; try reflexivity; try lia; field.
Qed.

Lemma C5_witness :
  listening (host Scenario.session) = true /\
  (0 <= 640)%Z /\ (0 <= 480)%Z /\
  Rect.width (_sourceRect (scanner (step Scenario.session (LoadedMetadata 640 480))))
  = inject_Z 320.
Proof.
  split; [reflexivity | split; [lia | split; [lia |]]].
  exact (proj1 (proj2 (C5_source_rect_square_centered
                         Scenario.session 640 480 eq_refl ltac:(lia) ltac:(lia)))).
Defined.

(** ** [start()] on a running session *)

Local Arguments String.eqb : simpl never.

(** Case analysis on the scrutinee of an innermost [match] of the goal. *)
Ltac break_match :=
  match goal with
  | |- context [match ?x with _ => _ end] =>
      lazymatch x with
      | context [match _ with _ => _ end] => fail
      | _ => destruct x eqn:?
      end
  end.

(** Closed goals: a conjunction of equations between computed values. *)
Ltac by_computation :=
  repeat match goal with |- _ /\ _ => split end;
  vm_compute; first [reflexivity | discriminate].

(** Goals about the noise of a method that only logs quiet effects. *)
Ltac quiet :=
  unfold dormant, noise;
  repeat (cbn; try break_match);
  rewrite ?filter_app; cbn; rewrite ?app_nil_r;
  repeat split; try reflexivity; congruence.

(** Goals that say a method leaves some fields alone: unfold, split into
    the cases of the method, compare. *)
Ltac frame := repeat (cbn; try break_match); repeat split; try reflexivity; congruence.

Lemma clearTimeout_scanner (handle : option nat) (w : World) :
  scanner (QrScanner.clearTimeout handle w) = scanner w.
Proof. destruct handle; reflexivity. Qed.

Lemma clearTimeout_video (handle : option nat) (w : World) :
  video (QrScanner.clearTimeout handle w) = video w.
Proof. destruct handle; reflexivity. Qed.

(** After [start()] the session is active and unpaused, whatever it was. *)
Lemma start_sets_flags (w : World) :
  _active (scanner (QrScanner.start w)) = true /\
  _paused (scanner (QrScanner.start w)) = false.
Proof.
  unfold QrScanner.start.
  destruct (_active (scanner w) && negb (_paused (scanner w))) eqn:E.
  - apply andb_prop in E. destruct E as [Ha Hp].
    apply negb_true_iff in Hp. split; assumption.
  - repeat (cbn; rewrite ?clearTimeout_scanner, ?clearTimeout_video;
            try break_match); split; reflexivity.
Qed.

(** C7.  On a session that is active and unpaused, [start()] changes
    nothing: no field of the session, the video or the host differs
    afterwards, so no camera negotiation is queued and nothing is added to
    the trace; a second [start()] right after it does nothing either. *)
Theorem C7_start_noop_when_running (w : World) :
  _active (scanner w) = true ->
  _paused (scanner w) = false ->
  QrScanner.start w = w /\
  step (step w (Call QrScanner.ApiStart)) (Call QrScanner.ApiStart) = w /\
  acquiring (host (QrScanner.start w)) = acquiring (host w) /\
  trace (host (QrScanner.start w)) = trace (host w).
Proof.
  intros Ha Hp.
  assert (E : QrScanner.start w = w).
  { unfold QrScanner.start. rewrite Ha, Hp. reflexivity. }
  cbn [step QrScanner.call]. rewrite !E. repeat split; reflexivity.
Qed.

Lemma C7_witness :
  let w := run Scenario.session [Call QrScanner.ApiStart; AcquireSettled] in
  _active (scanner w) = true /\ _paused (scanner w) = false /\
  QrScanner.start w = w.
Proof.
  cbv zeta. split; [reflexivity | split; [reflexivity |]].
  exact (proj1 (C7_start_noop_when_running
                  (run Scenario.session [Call QrScanner.ApiStart; AcquireSettled])
                  eq_refl eq_refl)).
Defined.

(** Two calls in immediate succession from any state: the second one never
    does anything, because the first leaves the session active and
    unpaused. *)
Lemma start_twice (w : World) :
  QrScanner.start (QrScanner.start w) = QrScanner.start w.
Proof.
  destruct (start_sets_flags w) as [Ha Hp].
  unfold QrScanner.start at 1. rewrite Ha, Hp. reflexivity.
Qed.

(** ** The constructor *)

(** C9.  A numeric third argument is taken as the canvas size: the canvas
    and the initial region of interest get that size whatever the fourth
    argument is, and the error handler is the default one, which lets the
    sentinel ['No QR code found'] pass without reporting anything.  A third
    argument that is not a number leaves the canvas size to the fourth
    argument (400 when omitted) and is itself installed as the error
    handler; when it is [undefined] the default handler takes its place. *)
Theorem C9_constructor_third_argument
    (pf : Platform) (v : Video) (doc_hidden : bool)
    (onDecode third : Js.value) (canvasSize : option Q)
    (mode : option string) (r : QrScanner.reaction) :
  let w := QrScanner.construct pf v doc_hidden onDecode third canvasSize mode in
  let given :=
    match canvasSize with Some c => c | None => QrScanner.DEFAULT_CANVAS_SIZE end in
  match third with
  | Js.JsNumber n =>
      _onDecodeError (scanner w) = DefaultHandler /\
      canvas (scanner w) = {| canvas_width := n; canvas_height := n |} /\
      _sourceRect (scanner w)
      = {| Rect.x := 0; Rect.y := 0; Rect.width := n; Rect.height := n |} /\
      QrScanner.invoke_onDecodeError
        (Js.ErrString QrScanner.NO_QR_CODE_FOUND) r w = (w, false)
  | Js.JsUndefined =>
      _onDecodeError (scanner w) = DefaultHandler /\
      canvas (scanner w) = {| canvas_width := given; canvas_height := given |}
  | other =>
      _onDecodeError (scanner w) = InstalledHandler other /\
      canvas (scanner w) = {| canvas_width := given; canvas_height := given |}
  end.
Proof.
  unfold QrScanner.construct, QrScanner.createQrEngine.
  destruct third; cbn;
    destruct (existsb _ _); cbn; repeat split; reflexivity.
Qed.

(** ** Flash *)

(** C10.  A flash operation that resolves has applied the torch constraint
    to the first video track with success, and only then stores the
    requested value in [_flashOn] (the field [isFlashOn()] returns); an
    operation that rejects, for whatever reason, leaves every field of the
    session as it was. *)
Theorem C10_flash_state_follows_hardware
    (op : flash_op) (hw : QrScanner.Torch) (w : World) :
  match flash op hw w with
  | (QrScanner.Ok _, w') =>
      QrScanner.applyConstraints hw = None /\
      (exists t, QrScanner.first_video_track w = Some t /\
                 trace (host w')
                 = trace (host w) ++ [ApplyTorch (track_id t) (requested op w)]) /\
      scanner w' = set_flashOn (requested op w) (scanner w) /\
      QrScanner.isFlashOn w' = requested op w
  | (QrScanner.Err _, w') =>
      scanner w' = scanner w /\
      QrScanner.isFlashOn w' = QrScanner.isFlashOn w
  end.
Proof.
  destruct op; unfold flash, QrScanner.toggleFlash, QrScanner.turnFlashOn,
    QrScanner.turnFlashOff, QrScanner._setFlash, QrScanner.hasFlash;
    destruct (imageCapture (platform w)); cbn;
    try (split; reflexivity);
    destruct (QrScanner.first_video_track w) as [t|] eqn:Ht; cbn;
    try (split; reflexivity);
    destruct (QrScanner.photoCapabilities hw) as [modes|e]; cbn;
    try (split; reflexivity);
    destruct (existsb _ modes); cbn; try (split; reflexivity);
    unfold QrScanner.first_video_track in *; cbn; rewrite Ht;
    destruct (QrScanner.applyConstraints hw); cbn;
    try (split; reflexivity);
    (split; [reflexivity | split; [exists t; split; reflexivity | split; reflexivity]]).
Qed.

(** ** Camera negotiation *)

Section Negotiation.

Variable md : option (Constraint -> option MediaStream).

(** [_getMatchingCameraStream] walks the list in order, stops at the
    first candidate [getUserMedia] accepts, and fails with
    ['Camera not found.'] when there is none or no [mediaDevices]. *)
Lemma getMatchingCameraStream_spec (cs : list Constraint) :
  match QrScanner._getMatchingCameraStream md cs with
  | (QrScanner.Ok stream, requests) =>
      exists getUserMedia failed c rest,
        md = Some getUserMedia /\ cs = failed ++ c :: rest /\
        Forall (fun c' => getUserMedia c' = None) failed /\
        getUserMedia c = Some stream /\ requests = failed ++ [c]
  | (QrScanner.Err e, requests) =>
      e = QrScanner.CAMERA_NOT_FOUND /\
      match md with
      | None => requests = []
      | Some getUserMedia =>
          Forall (fun c => getUserMedia c = None) cs /\ requests = cs
      end
  end.
Proof.
  destruct md as [getUserMedia|] eqn:Hmd.
  2:{ destruct cs; cbn; split; reflexivity. }
  induction cs as [|c rest IH]; cbn.
  - split; [reflexivity | split; [constructor | reflexivity]].
  - destruct (getUserMedia c) as [stream|] eqn:Hc.
    + exists getUserMedia, [], c, rest. repeat split; auto.
    + destruct (QrScanner._getMatchingCameraStream (Some getUserMedia) rest)
        as [[stream|e] requests].
      * destruct IH as (g & failed & c' & rest' & Hg & Hcs & Hf & Hok & Hr).
        injection Hg as <-.
        exists getUserMedia, (c :: failed), c', rest'. subst.
        repeat split; auto.
      * destruct IH as (He & Hall & Hr). subst.
        repeat split; auto.
Qed.

Lemma getCameraStream_candidates (mode : option string) (exact : bool) :
  QrScanner._getCameraStream md mode exact
  = QrScanner._getMatchingCameraStream md (spec_candidates mode exact).
Proof.
  unfold QrScanner._getCameraStream, spec_candidates, requested_facing.
  destruct mode as [m|]; [destruct (Js.truthy m)|]; reflexivity.
Qed.

End Negotiation.

(** C6.  One camera acquisition tries the candidates "width at least 1024",
    "width at least 768", "no width", in this order, each with the requested
    facing mode, which is a hard constraint on every one of them (so on the
    first) when [exact] is set.  It resolves with the stream of the first
    candidate [getUserMedia] accepts, having asked for exactly the
    candidates before it and for it; it rejects, and then always with
    ['Camera not found.'], exactly when [navigator.mediaDevices] is missing
    or every candidate was refused. *)
Theorem C6_camera_negotiation
    (md : option (Constraint -> option MediaStream))
    (mode : option string) (exact : bool) :
  let cands := spec_candidates mode exact in
  (map width_min cands = [Some 1024%Z; Some 768%Z; None] /\
   Forall (fun c => facingMode c = requested_facing mode exact) cands) /\
  match QrScanner._getCameraStream md mode exact with
  | (QrScanner.Ok stream, requests) =>
      exists getUserMedia failed c rest,
        md = Some getUserMedia /\ cands = failed ++ c :: rest /\
        Forall (fun c' => getUserMedia c' = None) failed /\
        getUserMedia c = Some stream /\ requests = failed ++ [c]
  | (QrScanner.Err e, requests) =>
      e = QrScanner.CAMERA_NOT_FOUND /\
      match md with
      | None => requests = []
      | Some getUserMedia =>
          Forall (fun c => getUserMedia c = None) cands /\ requests = cands
      end
  end /\
  ((exists requests,
      QrScanner._getCameraStream md mode exact
      = (QrScanner.Err QrScanner.CAMERA_NOT_FOUND, requests))
   <-> (md = None \/
        exists getUserMedia,
          md = Some getUserMedia /\
          Forall (fun c => getUserMedia c = None) cands)).
Proof.
  intro cands. split; [| split].
  - split; [reflexivity | repeat constructor].
  - rewrite getCameraStream_candidates. apply getMatchingCameraStream_spec.
  - rewrite getCameraStream_candidates.
    pose proof (getMatchingCameraStream_spec md (spec_candidates mode exact)) as H.
    fold cands in H |- *.
    destruct (QrScanner._getMatchingCameraStream md cands) as [[stream|e] requests].
    + destruct H as (g & failed & c & rest & Hg & Hcs & Hf & Hok & Hr).
      split.
      * intros [requests' Heq]. discriminate Heq.
      * intros [Hnone | (g' & Hg' & Hall)]; [congruence |].
        rewrite Hg in Hg'. injection Hg' as <-.
        rewrite Hcs in Hall. apply Forall_app in Hall. destruct Hall as [_ Hall].
        inversion Hall; congruence.
    + destruct H as (He & H). subst e. split.
      * intros _. destruct md as [g|]; [right | left; reflexivity].
        exists g. split; [reflexivity | apply H].
      * intros _. exists requests. reflexivity.
Qed.

(** A device that cannot deliver 1024 pixels is asked twice. *)
Example negotiation_low_resolution :
  QrScanner._getCameraStream (Some Scenario.low_resolution) (Some "environment") true
  = (QrScanner.Ok Scenario.back_camera,
     [ {| width_min := Some 1024%Z; facingMode := Some (Exact "environment") |};
       {| width_min := Some 768%Z; facingMode := Some (Exact "environment") |} ]).
Proof. reflexivity. Qed.

(** ** The scan loop *)

Section ScanLoop.
Import QrScanner.

(** The loop of the release closure, in closed form. *)
Lemma stop_tracks_closed (ts : list Track) (w : World) :
  fold_left track_stop ts w
  = with_host (fun h =>
      set_trace (trace h ++ map (fun t => TrackStop (track_id t)) ts)
                (set_stopped (stopped h ++ map track_id ts) h)) w.
Proof.
  revert w. induction ts as [|t ts IH]; intro w.
  - destruct w as [s v [] p]. unfold with_host, set_trace, set_stopped. cbn.
    rewrite !app_nil_r. reflexivity.
  - cbn [fold_left]. rewrite IH. destruct w as [s v [] p].
    unfold track_stop, log, with_host, set_trace, set_stopped. cbn.
    rewrite <- !app_assoc. reflexivity.
Qed.

Lemma scanFrame_inactive (w : World) :
  _active (scanner w) = false -> _scanFrame w = w.
Proof. intro H. unfold _scanFrame. rewrite H. reflexivity. Qed.

Lemma scanFrame_playing (w : World) :
  _active (scanner w) = true -> paused (video w) = false ->
  ended (video w) = false ->
  _scanFrame w
  = log RequestAnimationFrame (with_host (fun h => set_raf (S (raf h)) h) w).
Proof. intros Ha Hp He. unfold _scanFrame. rewrite Ha, Hp, He. reflexivity. Qed.

Lemma pause_inactive (w : World) :
  _active (scanner w) = false -> pause w = with_scanner (set_paused true) w.
Proof. intro H. unfold pause. cbn. rewrite H. reflexivity. Qed.

Lemma pause_frame (w : World) :
  _active (scanner (pause w)) = _active (scanner w) /\
  raf (host (pause w)) = raf (host w) /\
  inflight (host (pause w)) = inflight (host w).
Proof.
  unfold pause, setTimeout. cbn.
  destruct (_active (scanner w)) eqn:Ha; cbn;
    [| rewrite Ha; repeat split; reflexivity].
  destruct (_offTimeout (scanner w)); cbn; rewrite Ha; repeat split; reflexivity.
Qed.

Lemma stop_frame (w : World) :
  _active (scanner (stop w)) = false /\
  raf (host (stop w)) = raf (host w) /\
  inflight (host (stop w)) = inflight (host w).
Proof.
  unfold stop. cbn. destruct (pause_frame w) as (_ & Hr & Hi).
  repeat split; assumption.
Qed.

Lemma postWorkerMessage_frame (e : QrEngine) (type : string) (w : World) :
  scanner (_postWorkerMessage e type w) = scanner w /\
  video (_postWorkerMessage e type w) = video w /\
  raf (host (_postWorkerMessage e type w)) = raf (host w) /\
  inflight (host (_postWorkerMessage e type w)) = inflight (host w).
Proof. destruct e; cbn; repeat split; reflexivity. Qed.

Lemma destroy_frame (w : World) :
  _active (scanner (destroy w)) = false /\
  raf (host (destroy w)) = raf (host w) /\
  inflight (host (destroy w)) = inflight (host w).
Proof.
  unfold destroy.
  set (w1 := with_host (set_listening false) w).
  destruct (postWorkerMessage_frame
              (_qrEnginePromise (scanner (stop w1))) "close" (stop w1))
    as (Hs & _ & Hr & Hi).
  destruct (stop_frame w1) as (Ha & Hr' & Hi').
  rewrite Hs, Hr, Hi, Ha, Hr', Hi'. repeat split; reflexivity.
Qed.

(** A method other than [start()] neither activates the session nor
    requests a frame. *)
Lemma call_keeps_inactive (a : api) (w : World) :
  a <> ApiStart -> _active (scanner w) = false ->
  _active (scanner (call a w)) = false /\
  raf (host (call a w)) = raf (host w).
Proof.
  intros Ha Hw. destruct a; cbn [call]; try congruence.
  - destruct (stop_frame w) as (H1 & H2 & _). split; assumption.
  - destruct (pause_frame w) as (H1 & H2 & _). rewrite H1. split; assumption.
  - destruct (destroy_frame w) as (H1 & H2 & _). split; assumption.
  - unfold setInversionMode.
    destruct (postWorkerMessage_frame
                (_qrEnginePromise (scanner w)) "inversionMode" w)
      as (H1 & _ & H2 & _).
    rewrite H1, H2. split; [assumption | reflexivity].
Qed.

Lemma reaction_keeps_inactive (calls : list api) (w : World) :
  ~ In ApiStart calls -> _active (scanner w) = false ->
  _active (scanner (fold_left (fun w a => call a w) calls w)) = false /\
  raf (host (fold_left (fun w a => call a w) calls w)) = raf (host w).
Proof.
  revert w. induction calls as [|a calls IH]; intros w Hn Hw; cbn.
  - split; [assumption | reflexivity].
  - destruct (call_keeps_inactive a w) as [H1 H2]; [| assumption |].
    + intro E. apply Hn. left. assumption.
    + destruct (IH (call a w)) as [H3 H4]; [| assumption |].
      * intro E. apply Hn. right. assumption.
      * split; [assumption | congruence].
Qed.

(** On an inactive session a rejected decode request only leaves the
    queue: the handler returns at its first line and [_scanFrame()] at
    its own. *)
Lemma settle_rejected_inactive (w : World) (error : Js.error) (r : reaction) :
  _active (scanner w) = false ->
  step w (DecodeSettled (Rejected error) r) = dequeue w
  \/ (inflight (host w) = [] /\ step w (DecodeSettled (Rejected error) r) = w).
Proof.
  intro Ha. cbn [step]. unfold decode_settled.
  destruct (inflight (host w)) as [|req rest] eqn:Hq.
  - right. split; reflexivity.
  - left. unfold on_rejected. cbn. rewrite Ha. cbn.
    rewrite scanFrame_inactive by (cbn; assumption).
    unfold dequeue, with_host. cbn. rewrite Hq. reflexivity.
Qed.

(** On an inactive session a fulfilled decode request requests no frame
    unless the caller's callback starts the session again. *)
Lemma settle_resolved_inactive (w : World) (payload : string) (r : reaction) :
  _active (scanner w) = false -> ~ In ApiStart (re_calls r) ->
  raf (host (step w (DecodeSettled (Resolved payload) r))) = raf (host w) /\
  _active (scanner (step w (DecodeSettled (Resolved payload) r))) = false.
Proof.
  intros Ha Hr. cbn [step]. unfold decode_settled.
  destruct (inflight (host w)) as [|req rest] eqn:Hq.
  - split; [reflexivity | assumption].
  - unfold on_fulfilled. cbn.
    destruct (_onDecode (scanner w)) as [| |f|];
      try (rewrite scanFrame_inactive by (cbn; assumption);
           split; [reflexivity | assumption]).
    unfold run_reaction.
    set (w1 := log (CallOnDecode f payload) (with_host (set_inflight rest) w)).
    destruct (reaction_keeps_inactive (re_calls r) w1 Hr Ha) as [H1 H2].
    destruct (re_throws r).
    + split; assumption.
    + rewrite scanFrame_inactive by assumption. split; assumption.
Qed.

(** *** An inactive session stays silent *)

Lemma noise_log (e : effect) (w : World) :
  loud e = false -> noise (log e w) = noise w.
Proof.
  intro H. unfold noise, log. cbn. rewrite filter_app. cbn. rewrite H.
  apply app_nil_r.
Qed.

Lemma noise_log_all (es : list effect) (w : World) :
  forallb (fun e => negb (loud e)) es = true -> noise (log_all es w) = noise w.
Proof.
  intro H. unfold noise, log_all. cbn. rewrite filter_app.
  replace (filter loud es) with (@nil effect); [apply app_nil_r |].
  induction es as [|e es IH]; [reflexivity |].
  cbn in H |- *. apply andb_prop in H. destruct H as [H1 H2].
  apply negb_true_iff in H1. rewrite H1. apply IH, H2.
Qed.

Lemma dormant_trans (w1 w2 w3 : World) :
  dormant w1 w2 -> dormant w2 w3 -> dormant w1 w3.
Proof. unfold dormant. intros [_ H1] [H2 H3]. split; congruence. Qed.

Lemma pause_dormant (w : World) :
  _active (scanner w) = false -> dormant w (pause w).
Proof. intro H. unfold pause. cbn. rewrite H. cbn. split; [exact H | reflexivity]. Qed.

Lemma stop_dormant (w : World) :
  _active (scanner w) = false -> dormant w (stop w).
Proof.
  intro H. destruct (pause_dormant w H) as [_ H2]. split; [reflexivity | exact H2].
Qed.

Lemma postWorkerMessage_dormant (e : QrEngine) (type : string) (w : World) :
  _active (scanner w) = false -> dormant w (_postWorkerMessage e type w).
Proof.
  intro H. destruct e; cbn; [split; [exact H | reflexivity] |].
  split; [exact H | rewrite noise_log by reflexivity; reflexivity].
Qed.

Lemma destroy_dormant (w : World) :
  _active (scanner w) = false -> dormant w (destroy w).
Proof.
  intro H. unfold destroy.
  set (w1 := with_host (set_listening false) w).
  assert (H1 : dormant w (stop w1)).
  { destruct (stop_dormant w1 H) as [A B]. split; [exact A | exact B]. }
  eapply dormant_trans; [exact H1 |].
  apply postWorkerMessage_dormant. apply H1.
Qed.

Lemma call_dormant (a : api) (w : World) :
  a <> ApiStart -> _active (scanner w) = false -> dormant w (call a w).
Proof.
  intros Ha H. destruct a; cbn [call]; try congruence.
  - apply stop_dormant, H.
  - apply pause_dormant, H.
  - apply destroy_dormant, H.
  - apply postWorkerMessage_dormant, H.
Qed.

Lemma calls_dormant (calls : list api) (w : World) :
  existsb (fun a => match a with ApiStart => true | _ => false end) calls = false ->
  _active (scanner w) = false ->
  dormant w (fold_left (fun w a => call a w) calls w).
Proof.
  revert w. induction calls as [|a calls IH]; intros w Hn H; cbn.
  - split; [exact H | reflexivity].
  - cbn in Hn. apply orb_false_iff in Hn. destruct Hn as [Ha Hn].
    assert (Hs : a <> ApiStart) by (intros ->; discriminate).
    pose proof (call_dormant a w Hs H) as H1.
    eapply dormant_trans; [exact H1 | apply IH; [exact Hn | apply H1]].
Qed.

Lemma release_dormant (w : World) :
  _active (scanner w) = false -> dormant w (release w).
Proof.
  intro H. unfold release. rewrite stop_tracks_closed. split; [exact H |].
  unfold noise. cbn. rewrite filter_app.
  replace (filter loud (map (fun t => TrackStop (track_id t)) _)) with (@nil effect);
    [apply app_nil_r |].
  generalize (match srcObject (video w) with Some s => getTracks s | None => [] end).
  intro ts. induction ts; [reflexivity | exact IHts].
Qed.

Lemma elapse_dormant (dt : nat) (w : World) :
  _active (scanner w) = false -> dormant w (elapse dt w).
Proof.
  intro H. unfold elapse.
  set (w1 := with_host _ (with_host _ w)).
  assert (H1 : dormant w w1) by (split; [exact H | reflexivity]).
  clearbody w1. revert H1.
  generalize (filter (fun t : nat * nat =>
                        snd t <=? now (host (with_host (fun h => set_now (now h + dt) h) w)))
                     (timers (host (with_host (fun h => set_now (now h + dt) h) w)))).
  intro due. revert w1. induction due as [|d due IH]; intros w1 H1; cbn.
  - assumption.
  - apply IH. eapply dormant_trans; [exact H1 | apply release_dormant, H1].
Qed.

Lemma start_settled_dormant (w : World) :
  _active (scanner w) = false -> dormant w (start_settled w).
Proof.
  intro H. unfold start_settled.
  destruct (acquiring (host w)) as [|preferred rest]; [split; [exact H | reflexivity] |].
  destruct (acquire _ preferred) as [[r guess] requests].
  assert (Hl : dormant w (log_all (map GetUserMedia requests)
                            (with_host (set_acquiring rest) w))).
  { split; [exact H |]. rewrite noise_log_all; [reflexivity |].
    induction requests; [reflexivity | exact IHrequests]. }
  destruct r as [stream | e].
  - destruct Hl as [A B]. split; [exact A | exact B].
  - destruct Hl as [_ B]. split; [reflexivity |].
    rewrite noise_log by reflexivity. exact B.
Qed.

Lemma step_dormant (w : World) (ev : event) :
  _active (scanner w) = false -> restarts ev = false -> dormant w (step w ev).
Proof.
  intros H Hr. destruct ev; cbn [step].
  - apply call_dormant; [intros ->; discriminate | exact H].
  - revert H. unfold flash, toggleFlash, turnFlashOn, turnFlashOff, _setFlash, hasFlash.
    intro H. destruct op; quiet.
  - unfold _onVisibilityChange. cbn.
    destruct (listening (host w)); [| split; [exact H | reflexivity]].
    destruct hide.
    + apply (pause_dormant (with_host (set_hidden true) w) H).
    + rewrite H. split; [exact H | reflexivity].
  - destruct (listening _); split; try exact H; reflexivity.
  - destruct (listening (host w)); [| split; [exact H | reflexivity]].
    unfold _onPlay. rewrite scanFrame_inactive by exact H.
    split; [exact H | reflexivity].
  - split; [exact H | reflexivity].
  - unfold animation_frame. destruct (raf (host w)); [split; [exact H | reflexivity] |].
    destruct (readyState _ <=? 1)%Z.
    + rewrite scanFrame_inactive by exact H. split; [exact H | reflexivity].
    + split; [exact H | rewrite noise_log by reflexivity; reflexivity].
  - unfold decode_settled. cbn in Hr.
    destruct (inflight (host w)) as [|req rest]; [split; [exact H | reflexivity] |].
    set (w0 := with_host (set_inflight rest) w).
    assert (H0 : dormant w w0) by (split; [exact H | reflexivity]).
    destruct o as [payload | error].
    + unfold on_fulfilled. change (_onDecode (scanner w0)) with (_onDecode (scanner w)).
      destruct (_onDecode (scanner w)) as [| |f|];
        try (rewrite scanFrame_inactive by exact H; exact H0).
      assert (H1 : dormant w (run_reaction r (log (CallOnDecode f payload) w0))).
      { eapply dormant_trans; [| apply calls_dormant; [exact Hr | exact H]].
        split; [exact H | rewrite noise_log by reflexivity; reflexivity]. }
      destruct (re_throws r); [exact H1 |].
      rewrite scanFrame_inactive by apply H1. exact H1.
    + unfold on_rejected. change (_active (scanner w0)) with (_active (scanner w)).
      rewrite H. cbn. rewrite scanFrame_inactive by exact H. exact H0.
  - apply start_settled_dormant, H.
  - apply elapse_dormant, H.
Qed.

Lemma run_dormant (evs : list event) (w : World) :
  _active (scanner w) = false -> existsb restarts evs = false -> dormant w (run w evs).
Proof.
  revert w. induction evs as [|ev evs IH]; intros w H Hn; cbn.
  - split; [exact H | reflexivity].
  - cbn in Hn. apply orb_false_iff in Hn. destruct Hn as [H1 H2].
    pose proof (step_dormant w ev H H1) as Hs.
    eapply dormant_trans; [exact Hs | apply IH; [apply Hs | exact H2]].
Qed.
End ScanLoop.

(** C1, in the form the code satisfies.
    [stop()] and [destroy()] leave a decode request that
    is in flight where it is and make the session inactive.  When the
    request then settles with a rejection, the handler returns before it
    looks at the error: the caller's error callback is not invoked, the
    engine is not replaced, nothing is logged and no frame is requested; the
    only change is that the request has left the queue.  And whatever
    happens afterwards (requests settling either way, animation frames,
    timers, visibility changes, camera negotiations settling), as long as
    neither the caller nor one of its callbacks calls [start()], the session
    stays inactive, the error callback is never invoked and no animation
    frame is requested. *)
Theorem C1_settling_after_stop
    (w : World) (a : QrScanner.api) (req : Request) (rest : list Request) :
  a = QrScanner.ApiStop \/ a = QrScanner.ApiDestroy ->
  inflight (host w) = req :: rest ->
  let w1 := step w (Call a) in
  inflight (host w1) = req :: rest /\
  _active (scanner w1) = false /\
  (forall error r,
      step w1 (DecodeSettled (QrScanner.Rejected error) r) = dequeue w1) /\
  (forall evs,
      existsb restarts evs = false ->
      _active (scanner (run w1 evs)) = false /\ noise (run w1 evs) = noise w1).
Proof.
  intros Hcall Hq w1.
  assert (H : _active (scanner w1) = false /\ inflight (host w1) = req :: rest).
  { subst w1. cbn [step]. destruct Hcall as [-> | ->]; cbn [QrScanner.call].
    - destruct (stop_frame w) as (H1 & _ & H3). split; congruence.
    - destruct (destroy_frame w) as (H1 & _ & H3). split; congruence. }
  destruct H as [Ha Hi]. split; [assumption | split; [assumption | split]].
  - intros error r.
    destruct (settle_rejected_inactive w1 error r Ha) as [E | [E _]];
      [assumption | congruence].
  - intros evs Hevs. apply (run_dormant evs w1 Ha Hevs).
Qed.

Lemma C1_witness :
  let w := Scenario.scanning in
  let req := {| req_engine := _qrEnginePromise (scanner w);
                req_rect := _sourceRect (scanner w) |} in
  (QrScanner.ApiStop = QrScanner.ApiStop \/ QrScanner.ApiStop = QrScanner.ApiDestroy) /\
  inflight (host w) = [req] /\
  _active (scanner (step w (Call QrScanner.ApiStop))) = false.
Proof.
  cbv zeta.
  assert (Hq : inflight (host Scenario.scanning)
               = [ {| req_engine := _qrEnginePromise (scanner Scenario.scanning);
                      req_rect := _sourceRect (scanner Scenario.scanning) |} ])
    by (vm_compute; reflexivity).
  split; [left; reflexivity | split; [exact Hq |]].
  exact (proj1 (proj2 (C1_settling_after_stop
                         Scenario.scanning QrScanner.ApiStop _ []
                         (or_introl eq_refl) Hq))).
Defined.

(** C1 in the wording of the specification fails
    on the fulfilment path: [this._onDecode] is handed
    to [then] as it is, with no look at [_active].  A session is stopped
    while a request is in flight; the request resolves; the caller's
    success callback is invoked although the session is inactive. *)
Lemma C1_counterexample :
  let w1 := step Scenario.scanning (Call QrScanner.ApiStop) in
  let w2 := step w1 (DecodeSettled (QrScanner.Resolved "hello") Scenario.quiet) in
  List.length (inflight (host Scenario.scanning)) = 1 /\
  List.length (inflight (host w1)) = 1 /\
  _active (scanner w1) = false /\
  callbacks w1 = [] /\
  callbacks w2 = [CallOnDecode 1 "hello"] /\
  callbacks w2 <> callbacks w1.
Proof. cbv zeta. by_computation. Qed.


(** ** The sentinel ['No QR code found'] *)

Lemma dequeue_cons (w : World) (req : Request) (rest : list Request) :
  inflight (host w) = req :: rest -> dequeue w = with_host (set_inflight rest) w.
Proof. intro H. unfold dequeue, with_host. rewrite H. reflexivity. Qed.

Lemma sentinel_not_unavailable :
  Js.includes "service unavailable" QrScanner.NO_QR_CODE_FOUND = false.
Proof. reflexivity. Qed.

(** C4, in the form the code satisfies.
    A decode request settles with the sentinel
    ['No QR code found'].  The success callback is not involved.  On an
    inactive session nothing happens at all.  On an active one the engine
    is kept and
    - under the default error handler nothing is reported: the request
      leaves the queue and [_scanFrame()] requests the next frame, provided
      the video is neither paused nor ended;
    - a caller-supplied error callback is invoked with the sentinel; the
      next frame is requested by [_scanFrame()] after the callback has
      returned, not if it threw;
    - an installed value that is not callable makes the handler throw, and
      no frame is requested. *)
Theorem C4_not_found_cycle
    (w : World) (req : Request) (rest : list Request) (r : QrScanner.reaction) :
  inflight (host w) = req :: rest ->
  let sentinel := Js.ErrString QrScanner.NO_QR_CODE_FOUND in
  let w' := step w (DecodeSettled (QrScanner.Rejected sentinel) r) in
  if _active (scanner w) then
    match _onDecodeError (scanner w) with
    | DefaultHandler =>
        w' = (if paused (video w) || ended (video w) then dequeue w
              else log RequestAnimationFrame
                     (with_host (fun h => set_raf (S (raf h)) h) (dequeue w)))
    | InstalledHandler (Js.JsFunction f) =>
        let w1 := QrScanner.run_reaction r
                    (log (CallOnDecodeError f sentinel) (dequeue w)) in
        w' = (if QrScanner.re_throws r then w1 else QrScanner._scanFrame w1)
    | InstalledHandler _ => w' = dequeue w
    end
  else w' = dequeue w.
Proof.
  intros Hq sentinel w'. subst w' sentinel. cbn [step].
  rewrite (dequeue_cons w req rest Hq).
  unfold QrScanner.decode_settled. rewrite Hq.
  unfold QrScanner.on_rejected.
  change (_active (scanner (with_host (set_inflight rest) w)))
    with (_active (scanner w)).
  destruct (_active (scanner w)) eqn:Ha; cbn [negb].
  - cbn [QrScanner.error_message]. rewrite sentinel_not_unavailable.
    unfold QrScanner.invoke_onDecodeError.
    change (_onDecodeError (scanner (with_host (set_inflight rest) w)))
      with (_onDecodeError (scanner w)).
    destruct (_onDecodeError (scanner w)) as [|[| |f|]]; try reflexivity.
    unfold QrScanner.default_onDecodeError, QrScanner._scanFrame.
    cbn [Js.error_eqb]. rewrite String.eqb_refl.
    change (_active (scanner (with_host (set_inflight rest) w)))
      with (_active (scanner w)).
    rewrite Ha. reflexivity.
  - rewrite scanFrame_inactive by exact Ha. reflexivity.
Qed.

Lemma C4_witness :
  let w := Scenario.scanning in
  let sentinel := Js.ErrString QrScanner.NO_QR_CODE_FOUND in
  inflight (host w)
  = [ {| req_engine := _qrEnginePromise (scanner w);
         req_rect := _sourceRect (scanner w) |} ] /\
  step w (DecodeSettled (QrScanner.Rejected sentinel) Scenario.quiet)
  = log RequestAnimationFrame
        (with_host (fun h => set_raf (S (raf h)) h) (dequeue w)).
Proof.
  cbv zeta.
  assert (Hq : inflight (host Scenario.scanning)
               = [ {| req_engine := _qrEnginePromise (scanner Scenario.scanning);
                      req_rect := _sourceRect (scanner Scenario.scanning) |} ])
    by (vm_compute; reflexivity).
  split; [exact Hq |].
  exact (C4_not_found_cycle Scenario.scanning _ [] Scenario.quiet Hq).
Defined.

(** C4 in the wording of the specification fails
    in two ways.  With a caller-supplied error callback
    (the second page of the bundle installs one that prints the error) the
    sentinel is handed to that callback.  And when the caller has paused the
    session while the request was in flight, no next frame is requested. *)
Lemma C4_counterexample :
  let sentinel := Js.ErrString QrScanner.NO_QR_CODE_FOUND in
  let miss := DecodeSettled (QrScanner.Rejected sentinel) Scenario.quiet in
  callbacks Scenario.scanning_with_error_callback = [] /\
  callbacks (step Scenario.scanning_with_error_callback miss)
  = [CallOnDecodeError 2 sentinel] /\
  _paused (scanner (step Scenario.scanning (Call QrScanner.ApiPause))) = true /\
  raf (host (run Scenario.scanning [Call QrScanner.ApiPause; miss])) = 0 /\
  trace (host (run Scenario.scanning [Call QrScanner.ApiPause; miss]))
  = trace (host Scenario.scanning).
Proof. cbv zeta. by_computation. Qed.

(** ** The decode engine *)

Section Engine.
Import QrScanner.

Lemma engine_kept_refl (w : World) : engine_kept w w.
Proof. repeat split. Qed.

Lemma engine_kept_trans (w1 w2 w3 : World) :
  engine_kept w1 w2 -> engine_kept w2 w3 -> engine_kept w1 w3.
Proof. unfold engine_kept. intuition congruence. Qed.

Lemma pause_engine (w : World) : engine_kept w (pause w).
Proof. unfold engine_kept, pause, setTimeout. frame. Qed.

Lemma stop_engine (w : World) : engine_kept w (stop w).
Proof. unfold engine_kept, stop, pause, setTimeout. frame. Qed.

Lemma destroy_engine (w : World) : engine_kept w (destroy w).
Proof.
  unfold engine_kept, destroy, _postWorkerMessage, stop, pause, setTimeout.
  frame.
Qed.

Lemma start_engine (w : World) : engine_kept w (start w).
Proof. unfold engine_kept, start, clearTimeout. frame. Qed.

Lemma release_engine (w : World) : engine_kept w (release w).
Proof. unfold engine_kept, release. rewrite stop_tracks_closed. frame. Qed.

Lemma call_engine (a : api) (w : World) : engine_kept w (call a w).
Proof.
  destruct a; cbn [call];
    auto using start_engine, stop_engine, pause_engine, destroy_engine.
  unfold engine_kept, setInversionMode, _postWorkerMessage. frame.
Qed.

Lemma reaction_engine (r : reaction) (w : World) :
  engine_kept w (run_reaction r w).
Proof.
  unfold run_reaction. generalize (re_calls r). intro calls. revert w.
  induction calls as [|a calls IH]; intro w; cbn.
  - apply engine_kept_refl.
  - eapply engine_kept_trans; [apply (call_engine a) | apply IH].
Qed.

Lemma scanFrame_engine (w : World) : engine_kept w (_scanFrame w).
Proof. unfold engine_kept, _scanFrame. frame. Qed.

Lemma start_settled_engine (w : World) : engine_kept w (start_settled w).
Proof. unfold engine_kept, start_settled, _setVideoMirror. frame. Qed.

Lemma animation_frame_engine (w : World) : engine_kept w (animation_frame w).
Proof. unfold engine_kept, animation_frame, _scanFrame. frame. Qed.

Lemma flash_engine (op : flash_op) (hw : Torch) (w : World) :
  engine_kept w (snd (flash op hw w)).
Proof.
  unfold engine_kept, flash, toggleFlash, turnFlashOn, turnFlashOff,
    _setFlash, hasFlash.
  destruct op; frame.
Qed.

Lemma elapse_engine (dt : nat) (w : World) : engine_kept w (elapse dt w).
Proof.
  unfold elapse.
  set (w1 := with_host _ (with_host _ w)).
  assert (H1 : engine_kept w w1) by (repeat split).
  clearbody w1. revert H1.
  generalize (filter (fun t : nat * nat =>
                        snd t <=? now (host (with_host (fun h => set_now (now h + dt) h) w)))
                     (timers (host (with_host (fun h => set_now (now h + dt) h) w)))).
  intro due. revert w1. induction due as [|d due IH]; intros w1 H1; cbn.
  - assumption.
  - apply IH. eapply engine_kept_trans; [exact H1 | apply release_engine].
Qed.

Lemma invoke_onDecodeError_engine (error : Js.error) (r : reaction) (w : World) :
  engine_kept w (fst (invoke_onDecodeError error r w)).
Proof.
  unfold invoke_onDecodeError.
  destruct (_onDecodeError (scanner w)) as [|[| |f|]]; cbn [fst];
    try apply engine_kept_refl.
  - unfold engine_kept, default_onDecodeError. frame.
  - eapply engine_kept_trans; [| apply reaction_engine]. repeat split.
Qed.

Lemma on_fulfilled_engine (payload : string) (r : reaction) (w : World) :
  engine_kept w (fst (on_fulfilled payload r w)).
Proof.
  unfold on_fulfilled.
  destruct (_onDecode (scanner w)) as [| |f|]; cbn [fst];
    try apply engine_kept_refl.
  eapply engine_kept_trans; [| apply reaction_engine]. repeat split.
Qed.


Lemma createQrEngine_fresh (pf : Platform) (path : string) (h : Host) :
  fst (createQrEngine pf path h) = fresh_engine pf (next_engine h) /\
  next_engine (snd (createQrEngine pf path h)) = S (next_engine h).
Proof.
  unfold createQrEngine, fresh_engine, native_advertised.
  destruct (barcodeDetector pf) as [formats|]; cbn;
    [destruct (existsb _ formats) |]; cbn; split; reflexivity.
Qed.

End Engine.

Lemma decode_settled_engine
    (o : QrScanner.outcome) (r : QrScanner.reaction) (w : World) :
  if replaces_engine w (DecodeSettled o r) then
    _qrEnginePromise (scanner (QrScanner.decode_settled o r w))
    = fresh_engine (platform w) (next_engine (host w)) /\
    next_engine (host (QrScanner.decode_settled o r w)) = S (next_engine (host w))
  else engine_kept w (QrScanner.decode_settled o r w).
Proof.
  unfold replaces_engine, QrScanner.decode_settled.
  destruct (inflight (host w)) as [|req rest] eqn:Hq.
  { destruct o; apply engine_kept_refl. }
  set (w0 := with_host (set_inflight rest) w).
  assert (H0 : engine_kept w w0) by (repeat split).
  assert (Hthen : forall (w2 : World) (threw : bool),
             engine_kept w0 w2 ->
             engine_kept w (if threw then w2 else QrScanner._scanFrame w2)).
  { intros w2 threw H1. destruct threw.
    - exact (engine_kept_trans _ _ _ H0 H1).
    - exact (engine_kept_trans _ _ _ H0
               (engine_kept_trans _ _ _ H1 (scanFrame_engine w2))). }
  destruct o as [payload | error].
  - pose proof (on_fulfilled_engine payload r w0) as H1.
    destruct (QrScanner.on_fulfilled payload r w0) as [w1 threw]. cbn [fst] in H1.
    apply Hthen. exact H1.
  - unfold QrScanner.on_rejected.
    change (_active (scanner w0)) with (_active (scanner w)).
    destruct (_active (scanner w)) eqn:Ha; cbn [negb andb].
    2:{ apply (Hthen w0 false). apply engine_kept_refl. }
    destruct (QrScanner.error_message error) as [m|];
      [| apply (Hthen w0 true); apply engine_kept_refl].
    destruct (Js.includes "service unavailable" m).
    + destruct (createQrEngine_fresh (platform w0) QrScanner.WORKER_PATH (host w0))
        as [He Hn].
      destruct (QrScanner.createQrEngine (platform w0) QrScanner.WORKER_PATH (host w0))
        as [engine h1]. cbn [fst snd] in He, Hn.
      set (w1 := with_scanner (set_qrEnginePromise engine) (with_host (fun _ => h1) w0)).
      pose proof (invoke_onDecodeError_engine error r w1) as H1.
      destruct (QrScanner.invoke_onDecodeError error r w1) as [w2 threw].
      cbn [fst] in H1.
      assert (H2 : engine_kept w1 (if threw then w2 else QrScanner._scanFrame w2)).
      { destruct threw; [exact H1 |].
        exact (engine_kept_trans _ _ _ H1 (scanFrame_engine w2)). }
      destruct H2 as (E1 & E2 & _). cbv beta iota. rewrite E1, E2.
      split; [exact He | exact Hn].
    + pose proof (invoke_onDecodeError_engine error r w0) as H1.
      destruct (QrScanner.invoke_onDecodeError error r w0) as [w2 threw].
      cbn [fst] in H1. apply Hthen. exact H1.
Qed.

(** No event but the one named by [replaces_engine] touches the engine. *)
Lemma step_engine (w : World) (ev : event) :
  if replaces_engine w ev then
    _qrEnginePromise (scanner (step w ev))
    = fresh_engine (platform w) (next_engine (host w)) /\
    next_engine (host (step w ev)) = S (next_engine (host w))
  else engine_kept w (step w ev).
Proof.
  destruct ev; try apply decode_settled_engine; cbn [replaces_engine step].
  - apply call_engine.
  - apply flash_engine.
  - unfold engine_kept, QrScanner._onVisibilityChange.
    destruct (listening (host (with_host (set_hidden hide) w))); [| repeat split].
    destruct (hidden (host (with_host (set_hidden hide) w))).
    + apply (engine_kept_trans w (with_host (set_hidden hide) w));
        [repeat split | apply pause_engine].
    + destruct (_active (scanner (with_host (set_hidden hide) w)));
        [| repeat split].
      apply (engine_kept_trans w (with_host (set_hidden hide) w));
        [repeat split | apply start_engine].
  - unfold engine_kept, QrScanner._updateSourceRect. frame.
  - unfold QrScanner._onPlay.
    destruct (listening (host w)); [| apply engine_kept_refl].
    eapply engine_kept_trans; [| apply scanFrame_engine].
    unfold engine_kept, QrScanner._updateSourceRect. frame.
  - repeat split.
  - apply animation_frame_engine.
  - apply start_settled_engine.
  - apply elapse_engine.
Qed.




(** ** The grace timer *)

Section Grace.
Import QrScanner.

Lemma timers_ok_pending (w : World) (i : nat) :
  timers_ok w = true -> _offTimeout (scanner w) = Some i ->
  exists due, timers (host w) = [(i, due)] /\ due <= now (host w) + 300.
Proof.
  unfold timers_ok. intros H Hi. rewrite Hi in H.
  destruct (timers (host w)) as [|[j due] [|]]; try discriminate.
  apply andb_prop in H. destruct H as [H1 H2].
  apply Nat.eqb_eq in H1. apply Nat.leb_le in H2. subst j.
  exists due. split; [reflexivity | assumption].
Qed.

Lemma timers_ok_idle (w : World) :
  timers_ok w = true -> _offTimeout (scanner w) = None -> timers (host w) = [].
Proof.
  unfold timers_ok. intros H Hi. rewrite Hi in H.
  destruct (timers (host w)); [reflexivity | discriminate].
Qed.

Lemma elapse_no_timers (dt : nat) (w : World) :
  timers (host w) = [] ->
  elapse dt w = with_host (fun h => set_now (now h + dt) h) w.
Proof.
  intro H. destruct w as [s v [] p]. cbn in H. subst.
  unfold elapse, with_host, set_now, set_timers. cbn. reflexivity.
Qed.

Lemma elapse_early (dt : nat) (w : World) (i due : nat) :
  timers (host w) = [(i, due)] -> now (host w) + dt < due ->
  elapse dt w = with_host (fun h => set_now (now h + dt) h) w.
Proof.
  intros H Hlt. destruct w as [s v [] p]. cbn in H, Hlt. subst.
  apply Nat.leb_gt in Hlt.
  unfold elapse, with_host, set_now, set_timers. cbn. rewrite Hlt. cbn.
  reflexivity.
Qed.

Lemma elapse_fires (dt : nat) (w : World) (i due : nat) :
  timers (host w) = [(i, due)] -> due <= now (host w) + dt ->
  elapse dt w
  = release (with_host (fun h => set_timers [] (set_now (now h + dt) h)) w).
Proof.
  intros H Hle. destruct w as [s v [] p]. cbn in H, Hle. subst.
  apply Nat.leb_le in Hle.
  unfold elapse, with_host, set_now, set_timers. cbn. rewrite Hle. cbn.
  reflexivity.
Qed.

Lemma pause_schedules (w : World) :
  _active (scanner w) = true -> _offTimeout (scanner w) = None ->
  pause w
  = with_scanner (set_offTimeout (Some (next_timer (host w))))
      (with_host (fun h => set_next_timer (S (next_timer h))
                             (set_timers (timers h ++ [(next_timer h, now h + 300)]) h))
         (with_video (set_video_paused true)
            (with_scanner (set_paused true) w))).
Proof.
  intros Ha Ht. unfold pause. cbn. rewrite Ha, Ht. reflexivity.
Qed.

Lemma pause_pending (w : World) (i : nat) :
  _offTimeout (scanner w) = Some i ->
  pause w = (if _active (scanner w)
             then with_video (set_video_paused true) (with_scanner (set_paused true) w)
             else with_scanner (set_paused true) w).
Proof.
  intros Ht. unfold pause. cbn. rewrite Ht. destruct (_active (scanner w)); reflexivity.
Qed.

(** [start()] past its two early returns. *)
Lemma start_engages (w : World) :
  _active (scanner w) && negb (_paused (scanner w)) = false ->
  hidden (host w) = false ->
  timers (host (start w))
  = match _offTimeout (scanner w) with
    | Some i => filter (fun t => negb (fst t =? i)) (timers (host w))
    | None => timers (host w)
    end /\
  _offTimeout (scanner (start w)) = None /\
  stopped (host (start w)) = stopped (host w) /\
  srcObject (video (start w)) = srcObject (video w) /\
  now (host (start w)) = now (host w) /\
  (srcObject (video w) <> None -> acquiring (host (start w)) = acquiring (host w)).
Proof.
  intros Hg Hh. unfold start, clearTimeout. rewrite Hg.
  destruct (String.eqb (protocol (platform w)) "https:"); cbn; rewrite Hh;
    destruct (_offTimeout (scanner w)); cbn;
    destruct (srcObject (video w)) eqn:Hs; cbn; rewrite ?Hs; repeat split; intros; congruence.
Qed.

Lemma timers_kept_ok (w w' : World) :
  timers_kept w w' -> timers_ok w = true -> timers_ok w' = true.
Proof.
  unfold timers_kept, timers_ok. intros (H1 & H2 & H3). rewrite H1, H2, H3.
  trivial.
Qed.

Lemma pause_ok (w : World) : timers_ok w = true -> timers_ok (pause w) = true.
Proof.
  unfold timers_ok, pause, setTimeout. intro H.
  destruct w as [[] [] [] p]. cbn in *.
  destruct _active0; cbn; [| exact H].
  destruct _offTimeout0; cbn; [exact H |].
  destruct timers0; [| discriminate]. cbn.
  rewrite Nat.eqb_refl, Nat.leb_refl. reflexivity.
Qed.

Lemma stop_ok (w : World) : timers_ok w = true -> timers_ok (stop w) = true.
Proof.
  intro H. apply (timers_kept_ok (pause w)); [repeat split | apply pause_ok, H].
Qed.

Lemma destroy_ok (w : World) : timers_ok w = true -> timers_ok (destroy w) = true.
Proof.
  intro H. unfold destroy.
  set (w1 := stop (with_host (set_listening false) w)).
  assert (H1 : timers_ok w1 = true).
  { apply stop_ok. apply (timers_kept_ok w); [repeat split | exact H]. }
  apply (timers_kept_ok w1); [| exact H1].
  unfold timers_kept, _postWorkerMessage. frame.
Qed.

Lemma start_ok (w : World) : timers_ok w = true -> timers_ok (start w) = true.
Proof.
  intro H. unfold start.
  destruct (_active (scanner w) && negb (_paused (scanner w))); [exact H |].
  set (w1 := with_scanner (set_paused false) (with_scanner (set_active true) _)).
  assert (H1 : timers_kept w w1).
  { subst w1. unfold timers_kept. frame. }
  pose proof (timers_kept_ok _ _ H1 H) as H2. clearbody w1.
  destruct (hidden (host w1)); [exact H2 |].
  set (w2 := with_scanner (set_offTimeout None) (clearTimeout (_offTimeout (scanner w1)) w1)).
  assert (H3 : timers_ok w2 = true).
  { subst w2. unfold timers_ok, clearTimeout in *.
    destruct w1 as [[] [] [] p1]. cbn in *.
    destruct _offTimeout0 as [i|]; cbn.
    - destruct timers0 as [|[j due] [|]]; try discriminate. cbn.
      apply andb_prop in H2. destruct H2 as [E _]. rewrite Nat.eqb_sym, E.
      reflexivity.
    - exact H2. }
  clearbody w2.
  destruct (srcObject (video w2));
    (eapply timers_kept_ok; [| exact H3]); repeat split.
Qed.

Lemma release_ok (w : World) : timers (host w) = [] -> timers_ok (release w) = true.
Proof.
  intro H. unfold timers_ok, release. rewrite stop_tracks_closed. cbn.
  rewrite H. reflexivity.
Qed.

Lemma elapse_ok (dt : nat) (w : World) :
  timers_ok w = true -> timers_ok (elapse dt w) = true.
Proof.
  intro H. destruct (_offTimeout (scanner w)) as [i|] eqn:Hi.
  - destruct (timers_ok_pending w i H Hi) as (due & Ht & Hd).
    destruct (Nat.le_gt_cases due (now (host w) + dt)) as [Hle | Hgt].
    + rewrite (elapse_fires dt w i due Ht Hle). apply release_ok. reflexivity.
    + rewrite (elapse_early dt w i due Ht Hgt).
      unfold timers_ok. cbn. rewrite Hi, Ht, Nat.eqb_refl. cbn.
      apply Nat.leb_le. lia.
  - pose proof (timers_ok_idle w H Hi) as Ht.
    rewrite (elapse_no_timers dt w Ht).
    unfold timers_ok. cbn. rewrite Hi, Ht. reflexivity.
Qed.

Lemma call_ok (a : api) (w : World) :
  timers_ok w = true -> timers_ok (call a w) = true.
Proof.
  destruct a; cbn [call];
    auto using start_ok, stop_ok, pause_ok, destroy_ok.
  intro H. apply (timers_kept_ok w); [| exact H].
  unfold timers_kept, setInversionMode, _postWorkerMessage. frame.
Qed.

Lemma reaction_ok (r : reaction) (w : World) :
  timers_ok w = true -> timers_ok (run_reaction r w) = true.
Proof.
  unfold run_reaction. generalize (re_calls r). intro calls. revert w.
  induction calls as [|a calls IH]; intros w H; cbn.
  - exact H.
  - apply IH. apply call_ok. exact H.
Qed.

Lemma scanFrame_timers (w : World) : timers_kept w (_scanFrame w).
Proof. unfold timers_kept, _scanFrame. frame. Qed.

Lemma decode_settled_ok (o : outcome) (r : reaction) (w : World) :
  timers_ok w = true -> timers_ok (decode_settled o r w) = true.
Proof.
  intro H. unfold decode_settled.
  destruct (inflight (host w)) as [|req rest]; [exact H |].
  set (w0 := with_host (set_inflight rest) w).
  assert (H0 : timers_ok w0 = true).
  { apply (timers_kept_ok w); [repeat split | exact H]. }
  clearbody w0.
  assert (Hthen : forall w2 (threw : bool), timers_ok w2 = true ->
            timers_ok (if threw then w2 else _scanFrame w2) = true).
  { intros w2 [|] H2; [exact H2 |].
    apply (timers_kept_ok w2); [apply scanFrame_timers | exact H2]. }
  assert (Hcb : forall e w1, timers_ok w1 = true ->
            timers_ok (run_reaction r (log e w1)) = true).
  { intros e w1 H1. apply reaction_ok.
    apply (timers_kept_ok w1); [repeat split | exact H1]. }
  assert (Hinv : forall error w1, timers_ok w1 = true ->
            timers_ok (fst (invoke_onDecodeError error r w1)) = true).
  { intros error w1 H1. unfold invoke_onDecodeError.
    destruct (_onDecodeError (scanner w1)) as [|[| |f|]]; cbn [fst]; auto.
    apply (timers_kept_ok w1); [| exact H1].
    unfold timers_kept, default_onDecodeError. frame. }
  destruct o as [payload | error].
  - unfold on_fulfilled.
    destruct (_onDecode (scanner w0)) as [| |f|]; try apply (Hthen w0 false H0).
    apply Hthen. apply Hcb. exact H0.
  - unfold on_rejected.
    destruct (_active (scanner w0)); cbn [negb]; [| apply (Hthen w0 false H0)].
    destruct (error_message error) as [m|]; [| exact H0].
    match goal with
    | |- context [invoke_onDecodeError error r ?w1] =>
        assert (H1 : timers_ok w1 = true)
    end.
    { destruct (Js.includes "service unavailable" m); [| exact H0].
      apply (timers_kept_ok w0); [| exact H0].
      unfold timers_kept, createQrEngine. frame. }
    match goal with
    | |- context [invoke_onDecodeError error r ?w1] =>
        specialize (Hinv error w1 H1);
        destruct (invoke_onDecodeError error r w1) as [w2 threw]
    end.
    cbn [fst] in Hinv. apply Hthen. exact Hinv.
Qed.

Lemma step_ok (w : World) (ev : event) :
  timers_ok w = true -> timers_ok (step w ev) = true.
Proof.
  intro H. destruct ev; cbn [step].
  - apply call_ok, H.
  - apply (timers_kept_ok w); [| exact H].
    unfold timers_kept, flash, toggleFlash, turnFlashOn, turnFlashOff,
      _setFlash, hasFlash.
    destruct op; frame.
  - set (w1 := with_host (set_hidden hide) w).
    assert (H1 : timers_ok w1 = true)
      by (apply (timers_kept_ok w); [repeat split | exact H]).
    clearbody w1. unfold _onVisibilityChange.
    destruct (listening (host w1)); [| exact H1].
    destruct (hidden (host w1)); [apply pause_ok, H1 |].
    destruct (_active (scanner w1)); [apply start_ok, H1 | exact H1].
  - apply (timers_kept_ok w); [| exact H].
    unfold timers_kept, _updateSourceRect. frame.
  - destruct (listening (host w)); [| exact H].
    unfold _onPlay.
    apply (timers_kept_ok (_updateSourceRect w)); [apply scanFrame_timers |].
    apply (timers_kept_ok w); [| exact H].
    unfold timers_kept, _updateSourceRect. frame.
  - apply (timers_kept_ok w); [repeat split | exact H].
  - apply (timers_kept_ok w); [| exact H].
    unfold timers_kept, animation_frame, _scanFrame. frame.
  - apply decode_settled_ok, H.
  - apply (timers_kept_ok w); [| exact H].
    unfold timers_kept, start_settled, _setVideoMirror. frame.
  - apply elapse_ok, H.
Qed.

Lemma construct_ok pf v doc_hidden onDecode third canvasSize mode :
  timers_ok (construct pf v doc_hidden onDecode third canvasSize mode) = true.
Proof.
  unfold timers_ok, construct, createQrEngine.
  destruct third; cbn; destruct (existsb _ _); reflexivity.
Qed.

End Grace.

(** Every world a session can reach keeps the timer and its handle in
    agreement. *)
Lemma reachable_timers_ok (w : World) : reachable w -> timers_ok w = true.
Proof.
  induction 1 as [| w ev _ IH]; [apply construct_ok | apply step_ok, IH].
Qed.

(** A [start()] that gets past its two early returns cancels the pending
    release: afterwards no timer is left, so the passing of time stops no
    track. *)
Lemma start_cancels_pending_timer (w : World) (i dt : nat) :
  timers_ok w = true ->
  _offTimeout (scanner w) = Some i ->
  _active (scanner w) && negb (_paused (scanner w)) = false ->
  hidden (host w) = false ->
  timers (host (QrScanner.start w)) = [] /\
  _offTimeout (scanner (QrScanner.start w)) = None /\
  stopped (host (elapse dt (QrScanner.start w))) = stopped (host w) /\
  srcObject (video (elapse dt (QrScanner.start w))) = srcObject (video w).
Proof.
  intros Hok Hi Hg Hh.
  destruct (timers_ok_pending w i Hok Hi) as (due & Ht & _).
  destruct (start_engages w Hg Hh) as (H1 & H2 & H3 & H4 & _).
  rewrite Hi, Ht in H1. cbn in H1. rewrite Nat.eqb_refl in H1. cbn in H1.
  rewrite (elapse_no_timers dt _ H1). cbn. auto.
Qed.

(** C3, in the form the code satisfies.
    [pause()] on an active session with no release
    pending schedules one, due 300 ms later.  If [start()] is called before
    that, while the document is visible, the timer is cancelled: no track is
    ever stopped by it and the stream stays attached.  If 300 ms pass
    without a [start()], the timer fires: every track of the attached stream
    is stopped and the video source is cleared.  More generally, on any
    world where a release is pending, a [start()] that is not stopped by one
    of its two early returns (session already active and unpaused, document
    hidden) cancels it. *)
Theorem C3_grace_timer (w : World) (dt dt' : nat) :
  timers_ok w = true ->
  _active (scanner w) = true ->
  _offTimeout (scanner w) = None ->
  let w1 := step w (Call QrScanner.ApiPause) in
  let attached :=
    match srcObject (video w) with Some s => getTracks s | None => [] end in
  (_offTimeout (scanner w1) = Some (next_timer (host w)) /\
   timers (host w1) = [(next_timer (host w), now (host w) + 300)]) /\
  (if dt <? 300 then
     hidden (host w) = false ->
     let w3 := run w1 [Elapse dt; Call QrScanner.ApiStart; Elapse dt'] in
     timers (host w3) = [] /\
     _offTimeout (scanner w3) = None /\
     stopped (host w3) = stopped (host w) /\
     srcObject (video w3) = srcObject (video w)
   else
     let w2 := step w1 (Elapse dt) in
     timers (host w2) = [] /\
     _offTimeout (scanner w2) = None /\
     srcObject (video w2) = None /\
     stopped (host w2) = stopped (host w) ++ map track_id attached) /\
  (forall (u : World) (i : nat),
      timers_ok u = true ->
      _offTimeout (scanner u) = Some i ->
      _active (scanner u) && negb (_paused (scanner u)) = false ->
      hidden (host u) = false ->
      timers (host (QrScanner.start u)) = [] /\
      _offTimeout (scanner (QrScanner.start u)) = None).
Proof.
  intros Hok Ha Hi w1 attached.
  pose proof (timers_ok_idle w Hok Hi) as Ht.
  assert (E1 : w1 = QrScanner.pause w) by reflexivity. clearbody w1.
  rewrite (pause_schedules w Ha Hi) in E1.
  assert (Ht1 : timers (host w1) = [(next_timer (host w), now (host w) + 300)]).
  { rewrite E1. cbn. rewrite Ht. reflexivity. }
  assert (Hi1 : _offTimeout (scanner w1) = Some (next_timer (host w))).
  { rewrite E1. reflexivity. }
  assert (Hn1 : now (host w1) = now (host w)) by (rewrite E1; reflexivity).
  split; [split; assumption |]. split.
  - destruct (dt <? 300) eqn:Hdt.
    + (* start() within the window *)
      apply Nat.ltb_lt in Hdt. intros Hh w3. subst w3. cbn [run fold_left step QrScanner.call].
      rewrite (elapse_early dt w1 _ _ Ht1) by (rewrite Hn1; lia).
      set (w2 := with_host (fun h => set_now (now h + dt) h) w1).
      assert (Hok2 : timers_ok w2 = true).
      { unfold timers_ok. subst w2. cbn. rewrite Hi1, Ht1, Nat.eqb_refl. cbn.
        apply Nat.leb_le. rewrite Hn1. lia. }
      assert (Hi2 : _offTimeout (scanner w2) = Some (next_timer (host w)))
        by exact Hi1.
      assert (Hg2 : _active (scanner w2) && negb (_paused (scanner w2)) = false).
      { subst w2. rewrite E1. cbn. apply andb_false_r. }
      assert (Hh2 : hidden (host w2) = false).
      { subst w2. rewrite E1. cbn. exact Hh. }
      destruct (start_cancels_pending_timer w2 _ dt' Hok2 Hi2 Hg2 Hh2)
        as (C1 & C2 & C3 & C4).
      rewrite (elapse_no_timers dt' _ C1) in *. cbn in C3, C4 |- *.
      rewrite C1, C2, C3, C4. subst w2. rewrite E1. cbn. auto.
    + (* no start(): the timer fires *)
      apply Nat.ltb_ge in Hdt. intro w2. subst w2. cbn [step].
      rewrite (elapse_fires dt w1 _ _ Ht1) by (rewrite Hn1; lia).
      unfold QrScanner.release. rewrite stop_tracks_closed. rewrite E1. cbn.
      subst attached. unfold getTracks. destruct (srcObject (video w)); auto.
  - intros u i Hu Hiu Hgu Hhu.
    destruct (start_cancels_pending_timer u i 0 Hu Hiu Hgu Hhu) as (C1 & C2 & _).
    split; assumption.
Qed.

Lemma C3_witness :
  let w := run Scenario.session [Call QrScanner.ApiStart; AcquireSettled] in
  timers_ok w = true /\
  _active (scanner w) = true /\
  _offTimeout (scanner w) = None /\
  timers (host (step w (Call QrScanner.ApiPause))) = [(1, 300)].
Proof.
  cbv zeta.
  split; [vm_compute; reflexivity |].
  split; [vm_compute; reflexivity |].
  split; [vm_compute; reflexivity |].
  exact (proj2 (proj1 (C3_grace_timer
           (run Scenario.session [Call QrScanner.ApiStart; AcquireSettled]) 0 0
           ltac:(vm_compute; reflexivity) ltac:(vm_compute; reflexivity)
           ltac:(vm_compute; reflexivity)))).
Defined.

(** C3 in the wording of the specification fails
    on "any call to [start()]".  The page is hidden
    while the camera runs, which pauses the session and schedules the
    release.  The caller calls [start()] 100 ms later, the page still
    hidden: [start()] returns before it reaches [clearTimeout].  200 ms
    later the timer fires and stops the camera's track, although [start()]
    was called within the window and the session counts as active and
    unpaused. *)
Lemma C3_counterexample :
  let w := run Scenario.session
               [Call QrScanner.ApiStart; AcquireSettled; VisibilityChange true] in
  let w1 := run w [Elapse 100; Call QrScanner.ApiStart] in
  let w2 := step w1 (Elapse 200) in
  srcObject (video w) = Some Scenario.front_camera /\
  timers (host w) = [(1, 300)] /\
  _offTimeout (scanner w) = Some 1 /\
  timers (host w1) = [(1, 300)] /\
  _active (scanner w2) = true /\
  _paused (scanner w2) = false /\
  stopped (host w) = [] /\
  stopped (host w2) = [7] /\
  stopped (host w2) <> stopped (host w) /\
  srcObject (video w2) = None.
Proof. cbv zeta. by_computation. Qed.

(** The same with a [start()] made while the page is visible: the call made
    while the page was hidden has left the session active and unpaused, so
    the [start()] that [_onVisibilityChange()] makes when the page comes
    back returns at its first line; the release still fires, and no camera
    is acquired again. *)
Example visible_start_may_not_cancel :
  let w := run Scenario.session
               [Call QrScanner.ApiStart; AcquireSettled; VisibilityChange true;
                Elapse 100; Call QrScanner.ApiStart; VisibilityChange false;
                Elapse 200] in
  hidden (host w) = false /\
  _active (scanner w) = true /\
  _paused (scanner w) = false /\
  stopped (host w) = [7] /\
  srcObject (video w) = None /\
  acquiring (host w) = [].
Proof. cbv zeta. by_computation. Qed.

(** ** Facing-mode fallback *)

(** The requests of one negotiation are the first candidates of its list. *)
Lemma getCameraStream_requests_prefix
    (md : option (Constraint -> option MediaStream))
    (mode : option string) (exact : bool) :
  exists untried,
    spec_candidates mode exact
    = snd (QrScanner._getCameraStream md mode exact) ++ untried.
Proof.
  rewrite getCameraStream_candidates.
  pose proof (getMatchingCameraStream_spec md (spec_candidates mode exact)) as H.
  destruct (QrScanner._getMatchingCameraStream md (spec_candidates mode exact))
    as [[stream|e] requests]; cbn [snd].
  - destruct H as (g & failed & c & rest & _ & Hcs & _ & _ & Hr).
    exists rest. rewrite Hcs, Hr, <- app_assoc. reflexivity.
  - destruct H as (_ & H). destruct md as [g|].
    + destruct H as [_ Hr]. exists []. rewrite Hr, app_nil_r. reflexivity.
    + exists (spec_candidates mode exact). rewrite H. reflexivity.
Qed.

Lemma getCameraStream_error
    (md : option (Constraint -> option MediaStream))
    (mode : option string) (exact : bool) (e : Js.error) :
  fst (QrScanner._getCameraStream md mode exact) = QrScanner.Err e ->
  e = QrScanner.CAMERA_NOT_FOUND.
Proof.
  rewrite getCameraStream_candidates.
  pose proof (getMatchingCameraStream_spec md (spec_candidates mode exact)) as H.
  destruct (QrScanner._getMatchingCameraStream md (spec_candidates mode exact))
    as [[stream|e'] requests]; cbn [fst]; intro E; [discriminate |].
  injection E as <-. apply H.
Qed.

(** C2, in the form the code satisfies.
    When the negotiation with the preferred facing mode as
    an exact constraint fails, [start()] runs one more negotiation, and that
    one carries no facing mode at all: its requests are the first of the
    candidates "width at least 1024", "width at least 768", "no width",
    each without a [facingMode] member.  The opposite facing mode is only
    the guess used when the stream's track label tells nothing.  When the
    retry succeeds the stream is attached and played, and the video is
    flipped horizontally if and only if the resolved facing mode (from the
    label, else the guess) is ["user"].  When it fails too, the session
    becomes inactive and the promise is rejected with
    ['Camera not found.']. *)
Theorem C2_facing_mode_fallback
    (w : World) (preferred : string) (rest : list string)
    (e : Js.error) (requests : list Constraint) :
  acquiring (host w) = preferred :: rest ->
  QrScanner._getCameraStream (mediaDevices (platform w)) (Some preferred) true
  = (QrScanner.Err e, requests) ->
  let retry := QrScanner._getCameraStream (mediaDevices (platform w)) None false in
  let w' := step w AcquireSettled in
  (exists untried,
      [ {| width_min := Some 1024%Z; facingMode := None |};
        {| width_min := Some 768%Z; facingMode := None |};
        {| width_min := None; facingMode := None |} ]
      = snd retry ++ untried) /\
  match fst retry with
  | QrScanner.Ok stream =>
      let resolved :=
        match QrScanner._getFacingMode stream with
        | Some m => m
        | None => QrScanner.opposite preferred
        end in
      trace (host w')
      = trace (host w) ++ map GetUserMedia (requests ++ snd retry) /\
      srcObject (video w') = Some stream /\
      paused (video w') = false /\
      style_transform (video w')
      = (if String.eqb resolved "user" then "scaleX(-1)" else "scaleX(1)") /\
      (style_transform (video w') = "scaleX(-1)" <-> resolved = "user") /\
      scanner w' = scanner w
  | QrScanner.Err e' =>
      e' = QrScanner.CAMERA_NOT_FOUND /\
      trace (host w')
      = trace (host w) ++ map GetUserMedia (requests ++ snd retry)
        ++ [StartRejected e'] /\
      _active (scanner w') = false /\
      video w' = video w
  end.
Proof.
  intros Hq H1 retry w'.
  split; [exact (getCameraStream_requests_prefix _ None false) |].
  pose proof (getCameraStream_error (mediaDevices (platform w)) None false) as Herr.
  fold retry in Herr.
  assert (Hw : w' = QrScanner.start_settled w) by reflexivity.
  unfold QrScanner.start_settled in Hw. rewrite Hq in Hw.
  unfold QrScanner.acquire in Hw. cbn [platform with_host] in Hw.
  rewrite H1 in Hw. fold retry in Hw.
  destruct retry as [[stream|e'] requests']; cbn [fst snd] in *.
  - rewrite Hw. unfold QrScanner._setVideoMirror. cbn.
    set (resolved := match QrScanner._getFacingMode stream with
                     | Some m => m
                     | None => QrScanner.opposite preferred
                     end).
    repeat split; try reflexivity.
    + destruct (String.eqb resolved "user"); reflexivity.
    + destruct (String.eqb resolved "user") eqn:E.
      * intros _. apply String.eqb_eq. exact E.
      * cbn. discriminate.
    + intros E. rewrite E. reflexivity.
  - rewrite Hw. cbn. repeat split; try reflexivity.
    + apply Herr. reflexivity.
    + rewrite <- app_assoc. reflexivity.
Qed.

Lemma C2_witness :
  let w := step Scenario.session (Call QrScanner.ApiStart) in
  acquiring (host w) = ["environment"] /\
  fst (QrScanner._getCameraStream (mediaDevices (platform w)) (Some "environment") true)
  = QrScanner.Err QrScanner.CAMERA_NOT_FOUND /\
  exists untried,
    [ {| width_min := Some 1024%Z; facingMode := None |};
      {| width_min := Some 768%Z; facingMode := None |};
      {| width_min := None; facingMode := None |} ]
    = snd (QrScanner._getCameraStream (mediaDevices (platform w)) None false)
      ++ untried.
Proof.
  cbv zeta.
  split; [vm_compute; reflexivity |].
  split; [vm_compute; reflexivity |].
  exact (proj1 (C2_facing_mode_fallback
                  (step Scenario.session (Call QrScanner.ApiStart))
                  "environment" [] QrScanner.CAMERA_NOT_FOUND
                  (spec_candidates (Some "environment") true)
                  ltac:(vm_compute; reflexivity) ltac:(vm_compute; reflexivity))).
Defined.

(** C2 in the wording of the specification fails
    on what the retry asks for.  On a device whose only
    camera faces the user, with the default preference ["environment"], the
    three exact requests fail and the retry asks for "width at least 1024"
    with no [facingMode] member, not with the opposite mode ["user"]. *)
Lemma C2_counterexample :
  let w := run Scenario.session [Call QrScanner.ApiStart; AcquireSettled] in
  _preferredFacingMode (scanner Scenario.session) = "environment" /\
  trace (host w)
  = [ NewWorker 0 "qr-scanner-worker.min.js";
      GetUserMedia {| width_min := Some 1024%Z; facingMode := Some (Exact "environment") |};
      GetUserMedia {| width_min := Some 768%Z; facingMode := Some (Exact "environment") |};
      GetUserMedia {| width_min := None; facingMode := Some (Exact "environment") |};
      GetUserMedia {| width_min := Some 1024%Z; facingMode := None |} ] /\
  ~ In (GetUserMedia {| width_min := Some 1024%Z; facingMode := Some (Ideal "user") |})
       (trace (host w)) /\
  style_transform (video w) = "scaleX(-1)".
Proof.
  cbv zeta. split; [vm_compute; reflexivity |].
  split; [vm_compute; reflexivity |].
  split; [| vm_compute; reflexivity].
  vm_compute. intros [H | [H | [H | [H | [H | []]]]]]; discriminate H.
Qed.

(** * Further properties of the session *)

Section Lifecycle.
Import QrScanner.

Lemma run_reachable (w : World) (evs : list event) :
  reachable w -> reachable (run w evs).
Proof.
  revert w. induction evs as [|ev evs IH]; intros w H; [exact H |].
  cbn [run fold_left]. apply IH. apply reach_step. exact H.
Qed.

(** X1.  At every moment of a session, whatever calls and events it has
    seen, at most one release timer is pending: either [_offTimeout] is
    [null] and no timer is pending, or exactly one timer is pending,
    [_offTimeout] is its handle, and it is due at most 300 ms from now. *)
Theorem X1_one_release_timer
    (pf : Platform) (v : Video) (doc_hidden : bool) (onDecode third : Js.value)
    (canvasSize : option Q) (mode : option string) (evs : list event) :
  let w := run (construct pf v doc_hidden onDecode third canvasSize mode) evs in
  match _offTimeout (scanner w) with
  | None => timers (host w) = []
  | Some i => exists due, timers (host w) = [(i, due)] /\ due <= now (host w) + 300
  end.
Proof.
  intro w.
  assert (Hok : timers_ok w = true).
  { apply reachable_timers_ok, run_reachable, reach_construct. }
  destruct (_offTimeout (scanner w)) as [i |] eqn:Hi.
  - exact (timers_ok_pending w i Hok Hi).
  - exact (timers_ok_idle w Hok Hi).
Qed.

Lemma pause_with_timer_pending (w : World) (i : nat) :
  _offTimeout (scanner w) = Some i ->
  timers (host (pause w)) = timers (host w) /\
  _offTimeout (scanner (pause w)) = Some i /\
  now (host (pause w)) = now (host w) /\
  stopped (host (pause w)) = stopped (host w) /\
  srcObject (video (pause w)) = srcObject (video w).
Proof.
  intro H. rewrite (pause_pending w i H).
  destruct (_active (scanner w)); cbn; auto.
Qed.


(** The world right after a [pause()] that schedules the release. *)
Lemma pause_scheduled_facts (w : World) :
  timers_ok w = true ->
  _active (scanner w) = true ->
  _offTimeout (scanner w) = None ->
  timers (host (pause w)) = [(next_timer (host w), now (host w) + 300)] /\
  _offTimeout (scanner (pause w)) = Some (next_timer (host w)) /\
  now (host (pause w)) = now (host w) /\
  _active (scanner (pause w)) = true /\
  _paused (scanner (pause w)) = true /\
  timers_ok (pause w) = true.
Proof.
  intros Hok Ha Hi. pose proof (timers_ok_idle w Hok Hi) as Ht.
  pose proof (pause_ok w Hok) as Hok'.
  rewrite (pause_schedules w Ha Hi) in *.
  split; [cbn; rewrite Ht; reflexivity |].
  repeat split; try reflexivity; try assumption.
Qed.

(** X2.  A second [pause()] while the release is pending does not move its
    deadline: the timer fires 300 ms after the first [pause()], however
    often [pause()] is called in between. *)
Theorem X2_repeated_pause_keeps_deadline (w : World) (d1 d2 : nat) :
  timers_ok w = true ->
  _active (scanner w) = true ->
  _offTimeout (scanner w) = None ->
  d1 < 300 ->
  let attached :=
    match srcObject (video w) with Some s => getTracks s | None => [] end in
  let w2 := run w [Call ApiPause; Elapse d1; Call ApiPause] in
  let w3 := step w2 (Elapse d2) in
  timers (host w2) = [(next_timer (host w), now (host w) + 300)] /\
  if d1 + d2 <? 300 then
    timers (host w3) = timers (host w2) /\
    stopped (host w3) = stopped (host w) /\
    srcObject (video w3) = srcObject (video w)
  else
    timers (host w3) = [] /\
    _offTimeout (scanner w3) = None /\
    stopped (host w3) = stopped (host w) ++ map track_id attached /\
    srcObject (video w3) = None.
Proof.
  intros Hok Ha Hi Hd1 attached w2 w3.
  destruct (pause_scheduled_facts w Hok Ha Hi) as (Ht1 & Hi1 & Hn1 & Ha1 & Hp1 & Hok1).
  assert (Hs1 : stopped (host (pause w)) = stopped (host w) /\
                srcObject (video (pause w)) = srcObject (video w)).
  { rewrite (pause_schedules w Ha Hi). split; reflexivity. }
  destruct Hs1 as [Hs1 Hv1].
  assert (E2 : w2 = pause (elapse d1 (pause w))) by reflexivity.
  clearbody w2. set (w1 := pause w) in *. clearbody w1.
  rewrite (elapse_early d1 w1 _ _ Ht1) in E2 by (rewrite Hn1; lia).
  set (u := with_host (fun h => set_now (now h + d1) h) w1) in E2.
  assert (Hu : _offTimeout (scanner u) = Some (next_timer (host w))) by exact Hi1.
  destruct (pause_with_timer_pending u _ Hu) as (P1 & P2 & P3 & P4 & P5).
  rewrite <- E2 in P1, P2, P3, P4, P5. cbn in P1, P3, P4, P5.
  rewrite Ht1 in P1. rewrite Hn1 in P3. rewrite Hs1 in P4. rewrite Hv1 in P5.
  subst u. clear Hu. split; [exact P1 |].
  subst w3. cbn [step].
  destruct (d1 + d2 <? 300) eqn:Hd.
  - apply Nat.ltb_lt in Hd.
    rewrite (elapse_early d2 w2 _ _ P1) by (rewrite P3; lia). cbn.
    repeat split; assumption.
  - apply Nat.ltb_ge in Hd.
    rewrite (elapse_fires d2 w2 _ _ P1) by (rewrite P3; lia).
    unfold release. rewrite stop_tracks_closed. cbn. rewrite P4, P5.
    subst attached. unfold getTracks. repeat split; reflexivity.
Qed.

Lemma X2_witness :
  let w := Snapshot.running in
  timers_ok w = true /\
  _active (scanner w) = true /\
  _offTimeout (scanner w) = None /\
  100 < 300 /\
  timers (host (run w [Call ApiPause; Elapse 100; Call ApiPause]))
  = [(next_timer (host w), now (host w) + 300)].
Proof.
  cbv zeta.
  split; [reflexivity |]. split; [reflexivity |]. split; [reflexivity |].
  split; [lia |].
  exact (proj1 (X2_repeated_pause_keeps_deadline Snapshot.running 100 100
                  eq_refl eq_refl eq_refl ltac:(lia))).
Defined.



Lemma start_resumes_playback (w : World) (s : MediaStream) :
  _active (scanner w) && negb (_paused (scanner w)) = false ->
  hidden (host w) = false ->
  srcObject (video w) = Some s ->
  paused (video (start w)) = false /\
  hidden (host (start w)) = false.
Proof.
  intros Hg Hh Hs. unfold start, clearTimeout. rewrite Hg.
  destruct (String.eqb (protocol (platform w)) "https:"); cbn; rewrite Hh;
    destruct (_offTimeout (scanner w)); cbn; rewrite Hs; cbn; auto.
Qed.

(** X3.  [pause()] or [stop()], then [start()] before the 300 ms are over,
    on a visible page with a stream attached: the stream stays attached and
    plays again, no track is stopped, now or later, and no camera
    negotiation is started. *)
Theorem X3_restart_within_grace
    (w : World) (a : api) (s : MediaStream) (dt dt' : nat) :
  a = ApiPause \/ a = ApiStop ->
  timers_ok w = true ->
  _active (scanner w) = true ->
  _offTimeout (scanner w) = None ->
  hidden (host w) = false ->
  srcObject (video w) = Some s ->
  dt < 300 ->
  let w' := run w [Call a; Elapse dt; Call ApiStart; Elapse dt'] in
  srcObject (video w') = Some s /\
  paused (video w') = false /\
  _active (scanner w') = true /\
  _paused (scanner w') = false /\
  acquiring (host w') = acquiring (host w) /\
  stopped (host w') = stopped (host w) /\
  timers (host w') = [].
Proof.
  intros Hop Hok Ha Hi Hh Hs Hdt w'.
  destruct (pause_scheduled_facts w Hok Ha Hi) as (Ht1 & Hi1 & Hn1 & Ha1 & Hp1 & Hok1).
  assert (F : stopped (host (pause w)) = stopped (host w) /\
              srcObject (video (pause w)) = srcObject (video w) /\
              hidden (host (pause w)) = hidden (host w) /\
              acquiring (host (pause w)) = acquiring (host w)).
  { rewrite (pause_schedules w Ha Hi). repeat split; reflexivity. }
  destruct F as (Fs & Fv & Fh & Fa).
  set (w1 := step w (Call a)).
  assert (G : timers (host w1) = timers (host (pause w)) /\
              _offTimeout (scanner w1) = _offTimeout (scanner (pause w)) /\
              now (host w1) = now (host (pause w)) /\
              stopped (host w1) = stopped (host (pause w)) /\
              srcObject (video w1) = srcObject (video (pause w)) /\
              hidden (host w1) = hidden (host (pause w)) /\
              acquiring (host w1) = acquiring (host (pause w)) /\
              _active (scanner w1) && negb (_paused (scanner w1)) = false).
  { subst w1. destruct Hop as [-> | ->]; cbn [step call]; unfold stop; cbn;
      repeat split; try reflexivity.
    rewrite Ha1, Hp1. reflexivity. }
  destruct G as (G1 & G2 & G3 & G4 & G5 & G6 & G7 & G8).
  rewrite Ht1 in G1. rewrite Hi1 in G2. rewrite Hn1 in G3. rewrite Fs in G4.
  rewrite Fv, Hs in G5. rewrite Fh, Hh in G6. rewrite Fa in G7.
  assert (E : w' = elapse dt' (start (elapse dt w1))) by reflexivity.
  clearbody w' w1.
  rewrite (elapse_early dt w1 _ _ G1) in E by (rewrite G3; lia).
  set (u := with_host (fun h => set_now (now h + dt) h) w1) in E.
  assert (U1 : _active (scanner u) && negb (_paused (scanner u)) = false) by exact G8.
  assert (U2 : hidden (host u) = false) by exact G6.
  assert (U3 : srcObject (video u) = Some s) by exact G5.
  destruct (start_engages u U1 U2) as (S1 & S2 & S3 & S4 & _ & S6).
  destruct (start_resumes_playback u s U1 U2 U3) as (S7 & _).
  destruct (start_sets_flags u) as (S8 & S9).
  assert (S1' : timers (host (start u)) = []).
  { rewrite S1. change (_offTimeout (scanner u)) with (_offTimeout (scanner w1)).
    change (timers (host u)) with (timers (host w1)).
    rewrite G2, G1. cbn. rewrite Nat.eqb_refl. reflexivity. }
  rewrite (elapse_no_timers dt' _ S1') in E. subst w'. cbn.
  rewrite S4, S7, S8, S9, S3, S1', S6 by (rewrite U3; discriminate).
  repeat split; try reflexivity; assumption.
Qed.

Lemma X3_witness :
  let w := run Scenario.session [Call ApiStart; AcquireSettled] in
  (ApiStop = ApiPause \/ ApiStop = ApiStop) /\
  timers_ok w = true /\
  _active (scanner w) = true /\
  _offTimeout (scanner w) = None /\
  hidden (host w) = false /\
  srcObject (video w) = Some Scenario.front_camera /\
  100 < 300 /\
  srcObject (video (run w [Call ApiStop; Elapse 100; Call ApiStart; Elapse 500]))
  = Some Scenario.front_camera.
Proof.
  cbv zeta.
  split; [right; reflexivity |].
  split; [vm_compute; reflexivity |].
  split; [vm_compute; reflexivity |].
  split; [vm_compute; reflexivity |].
  split; [vm_compute; reflexivity |].
  split; [vm_compute; reflexivity |].
  split; [lia |].
  exact (proj1 (X3_restart_within_grace
           (run Scenario.session [Call ApiStart; AcquireSettled]) ApiStop
           Scenario.front_camera 100 500 (or_intror eq_refl)
           ltac:(vm_compute; reflexivity) ltac:(vm_compute; reflexivity)
           ltac:(vm_compute; reflexivity) ltac:(vm_compute; reflexivity)
           ltac:(vm_compute; reflexivity) ltac:(lia))).
Defined.


Lemma start_engages_closed (w : World) (s : MediaStream) :
  _active (scanner w) && negb (_paused (scanner w)) = false ->
  hidden (host w) = false ->
  srcObject (video w) = Some s ->
  scanner (start w)
  = set_offTimeout None (set_paused false (set_active true (scanner w))) /\
  video (start w) = set_video_paused false (video w).
Proof.
  intros Hg Hh Hs. unfold start, clearTimeout. rewrite Hg.
  destruct (String.eqb (protocol (platform w)) "https:"); cbn; rewrite Hh;
    destruct (_offTimeout (scanner w)); cbn; rewrite Hs; cbn; auto.
Qed.

(** X4.  The page is hidden while the session scans and shown again before
    the 300 ms are over: the session and the video element are exactly what
    they were, the release is cancelled, no track is stopped and no camera
    negotiation is started. *)
Theorem X4_hide_show_round_trip (w : World) (s : MediaStream) (dt : nat) :
  listening (host w) = true ->
  timers_ok w = true ->
  _active (scanner w) = true ->
  _paused (scanner w) = false ->
  _offTimeout (scanner w) = None ->
  paused (video w) = false ->
  srcObject (video w) = Some s ->
  dt < 300 ->
  let w' := run w [VisibilityChange true; Elapse dt; VisibilityChange false] in
  scanner w' = scanner w /\
  video w' = video w /\
  timers (host w') = [] /\
  stopped (host w') = stopped (host w) /\
  acquiring (host w') = acquiring (host w) /\
  hidden (host w') = false.
Proof.
  intros Hl Hok Ha Hp Hi Hvp Hs Hdt w'.
  set (w0 := with_host (set_hidden true) w).
  assert (Hok0 : timers_ok w0 = true) by exact Hok.
  destruct (pause_scheduled_facts w0 Hok0 Ha Hi) as (Ht1 & Hi1 & Hn1 & Ha1 & Hp1 & _).
  assert (E1 : step w (VisibilityChange true) = pause w0).
  { cbn [step]. fold w0. unfold _onVisibilityChange.
    change (listening (host w0)) with (listening (host w)). rewrite Hl.
    reflexivity. }
  assert (F : scanner (pause w0)
              = set_offTimeout (Some (next_timer (host w))) (set_paused true (scanner w)) /\
              video (pause w0) = set_video_paused true (video w) /\
              stopped (host (pause w0)) = stopped (host w) /\
              acquiring (host (pause w0)) = acquiring (host w) /\
              listening (host (pause w0)) = true).
  { rewrite (pause_schedules w0 Ha Hi). cbn. rewrite Hl. repeat split; reflexivity. }
  destruct F as (Fsc & Fv & Fs & Fa & Fl).
  assert (E : w' = step (elapse dt (pause w0)) (VisibilityChange false)).
  { subst w'. cbn [run fold_left]. rewrite E1. reflexivity. }
  clearbody w'. set (w1 := pause w0) in *. clearbody w1.
  change (next_timer (host w0)) with (next_timer (host w)) in *.
  change (now (host w0)) with (now (host w)) in *.
  rewrite (elapse_early dt w1 _ _ Ht1) in E by (rewrite Hn1; lia).
  set (u := with_host (set_hidden false)
              (with_host (fun h => set_now (now h + dt) h) w1)) in *.
  assert (Eu : w' = start u).
  { rewrite E. cbn [step]. fold u. unfold _onVisibilityChange.
    change (listening (host u)) with (listening (host w1)).
    change (_active (scanner u)) with (_active (scanner w1)).
    rewrite Fl, Ha1. reflexivity. }
  assert (U1 : _active (scanner u) && negb (_paused (scanner u)) = false).
  { change (_active (scanner u) && negb (_paused (scanner u)))
      with (_active (scanner w1) && negb (_paused (scanner w1))).
    rewrite Ha1, Hp1. reflexivity. }
  assert (U2 : hidden (host u) = false) by reflexivity.
  assert (U3 : srcObject (video u) = Some s).
  { change (video u) with (video w1). rewrite Fv. exact Hs. }
  destruct (start_engages u U1 U2) as (S1 & _ & S3 & _ & _ & S6).
  destruct (start_engages_closed u s U1 U2 U3) as (C1 & C2).
  destruct (start_resumes_playback u s U1 U2 U3) as (_ & C3).
  rewrite Eu, C1, C2, S1, S3, S6, C3 by (rewrite U3; discriminate).
  change (scanner u) with (scanner w1). change (video u) with (video w1).
  change (_offTimeout (scanner w1)) with (_offTimeout (scanner w1)).
  change (timers (host u)) with (timers (host w1)).
  change (stopped (host u)) with (stopped (host w1)).
  change (acquiring (host u)) with (acquiring (host w1)).
  rewrite Fsc, Fv, Ht1, Fs, Fa. cbn. rewrite Nat.eqb_refl. cbn.
  destruct (scanner w) as []; destruct (video w) as []; cbn in *.
  subst. repeat split; reflexivity.
Qed.

Lemma X4_witness :
  let w := Snapshot.running in
  listening (host w) = true /\
  timers_ok w = true /\
  _active (scanner w) = true /\
  _paused (scanner w) = false /\
  _offTimeout (scanner w) = None /\
  paused (video w) = false /\
  srcObject (video w) = Some Scenario.front_camera /\
  120 < 300 /\
  scanner (run w [VisibilityChange true; Elapse 120; VisibilityChange false])
  = scanner w.
Proof.
  cbv zeta.
  split; [reflexivity |]. split; [reflexivity |]. split; [reflexivity |].
  split; [reflexivity |]. split; [reflexivity |]. split; [reflexivity |].
  split; [reflexivity |]. split; [lia |].
  exact (proj1 (X4_hide_show_round_trip Snapshot.running Scenario.front_camera 120
                  eq_refl eq_refl eq_refl eq_refl eq_refl eq_refl eq_refl
                  ltac:(lia))).
Defined.


End Lifecycle.

(** ** What stays outside the scan loop *)

Section OffLoop.
Import QrScanner.

Lemma offloop_refl (w : World) : offloop w w.
Proof. repeat split; auto. Qed.

Lemma offloop_trans (w1 w2 w3 : World) :
  offloop w1 w2 -> offloop w2 w3 -> offloop w1 w3.
Proof.
  intros (A1 & A2 & A3 & A4) (B1 & B2 & B3 & B4).
  repeat split; try congruence. auto.
Qed.

Ltac offloop_tac :=
  unfold offloop, scans;
  repeat (cbn; try break_match);
  rewrite ?filter_app; cbn; rewrite ?app_nil_r;
  repeat split; try reflexivity; try congruence; auto.

Lemma pause_offloop (w : World) : offloop w (pause w).
Proof. unfold pause, setTimeout. offloop_tac. Qed.

Lemma stop_offloop (w : World) : offloop w (stop w).
Proof. unfold stop, pause, setTimeout. offloop_tac. Qed.

Lemma destroy_offloop (w : World) : offloop w (destroy w).
Proof. unfold destroy, _postWorkerMessage, stop, pause, setTimeout. offloop_tac. Qed.

Lemma start_offloop (w : World) : offloop w (start w).
Proof. unfold start, clearTimeout. offloop_tac. Qed.

Lemma call_offloop (a : api) (w : World) : offloop w (call a w).
Proof.
  destruct a; cbn [call];
    auto using start_offloop, stop_offloop, pause_offloop, destroy_offloop.
  unfold setInversionMode, _postWorkerMessage. offloop_tac.
Qed.

Lemma reaction_offloop (r : reaction) (w : World) : offloop w (run_reaction r w).
Proof.
  unfold run_reaction. generalize (re_calls r). intro calls. revert w.
  induction calls as [|a calls IH]; intro w; cbn.
  - apply offloop_refl.
  - eapply offloop_trans; [apply (call_offloop a) | apply IH].
Qed.

Lemma filter_map_none {A : Type} (p : effect -> bool) (f : A -> effect) (l : list A) :
  (forall a, p (f a) = false) -> filter p (map f l) = [].
Proof.
  intro H. induction l as [|a l IH]; [reflexivity |]. cbn. rewrite H. exact IH.
Qed.

Lemma release_offloop (w : World) : offloop w (release w).
Proof.
  unfold release. rewrite stop_tracks_closed. unfold offloop, scans. cbn.
  rewrite filter_app, filter_map_none by reflexivity. rewrite app_nil_r.
  repeat split; auto.
Qed.

Lemma elapse_offloop (dt : nat) (w : World) : offloop w (elapse dt w).
Proof.
  unfold elapse.
  set (w1 := with_host _ (with_host _ w)).
  assert (H1 : offloop w w1) by (repeat split; auto).
  clearbody w1. revert H1.
  generalize (filter (fun t : nat * nat =>
                        snd t <=? now (host (with_host (fun h => set_now (now h + dt) h) w)))
                     (timers (host (with_host (fun h => set_now (now h + dt) h) w)))).
  intro due. revert w1. induction due as [|d due IH]; intros w1 H1; cbn.
  - assumption.
  - apply IH. eapply offloop_trans; [exact H1 | apply release_offloop].
Qed.

Lemma start_settled_offloop (w : World) : offloop w (start_settled w).
Proof.
  unfold start_settled.
  destruct (acquiring (host w)) as [|preferred rest]; [apply offloop_refl |].
  destruct (acquire _ preferred) as [[r guess] requests].
  destruct r as [stream | e]; unfold offloop, scans, _setVideoMirror; cbn;
    rewrite ?filter_app, filter_map_none by reflexivity; cbn;
    rewrite ?app_nil_r; repeat split; auto.
Qed.

Lemma flash_offloop (op : flash_op) (hw : Torch) (w : World) :
  offloop w (snd (flash op hw w)).
Proof.
  unfold flash, toggleFlash, turnFlashOn, turnFlashOff, _setFlash, hasFlash.
  destruct op; offloop_tac.
Qed.

Lemma visibility_offloop (hide : bool) (w : World) :
  offloop w (step w (VisibilityChange hide)).
Proof.
  cbn [step]. set (w0 := with_host (set_hidden hide) w).
  assert (H0 : offloop w w0) by (repeat split; auto).
  unfold _onVisibilityChange.
  destruct (listening (host w0)); [| exact H0].
  destruct (hidden (host w0)).
  - eapply offloop_trans; [exact H0 | apply pause_offloop].
  - destruct (_active (scanner w0)); [| exact H0].
    eapply offloop_trans; [exact H0 | apply start_offloop].
Qed.

Lemma scanFrame_loop (w : World) :
  raf (host (_scanFrame w)) <= S (raf (host w)) /\
  inflight (host (_scanFrame w)) = inflight (host w).
Proof.
  unfold _scanFrame.
  destruct (negb (_active (scanner w)) || paused (video w) || ended (video w));
    cbn; split; auto.
Qed.

Lemma invoke_onDecodeError_offloop (error : Js.error) (r : reaction) (w : World) :
  raf (host (fst (invoke_onDecodeError error r w))) = raf (host w) /\
  inflight (host (fst (invoke_onDecodeError error r w))) = inflight (host w).
Proof.
  unfold invoke_onDecodeError.
  destruct (_onDecodeError (scanner w)) as [|[| |f|]]; cbn [fst]; auto.
  - unfold default_onDecodeError. destruct (Js.error_eqb _ _); cbn; auto.
  - destruct (reaction_offloop r (log (CallOnDecodeError f error) w)) as (A & B & _).
    rewrite A, B. cbn. auto.
Qed.

(** One event adds at most one chain, and only a [play] event does. *)
Lemma step_chains (w : World) (ev : event) :
  chains (step w ev) <= chains w + (if is_play ev then 1 else 0).
Proof.
  unfold chains.
  destruct ev; cbn [is_play step].
  - destruct (call_offloop a w) as (A & B & _). rewrite A, B. lia.
  - destruct (flash_offloop op hw w) as (A & B & _). rewrite A, B. lia.
  - destruct (visibility_offloop hide w) as (A & B & _). cbn [step] in A, B.
    rewrite A, B. lia.
  - destruct (listening _); cbn; lia.
  - destruct (listening (host w)); [| lia]. unfold _onPlay.
    destruct (scanFrame_loop (_updateSourceRect w)) as (A & B).
    rewrite B. cbn in A |- *. lia.
  - cbn. lia.
  - unfold animation_frame. destruct (raf (host w)) as [|n] eqn:Hr; [rewrite Hr; lia |].
    destruct (readyState _ <=? 1)%Z.
    + destruct (scanFrame_loop (with_host (set_raf n) w)) as (A & B).
      rewrite B. cbn in A |- *. lia.
    + cbn. rewrite length_app. cbn. lia.
  - unfold decode_settled.
    destruct (inflight (host w)) as [|req rest] eqn:Hq; [rewrite Hq; lia |].
    set (w0 := with_host (set_inflight rest) w).
    assert (H0 : raf (host w0) = raf (host w) /\ inflight (host w0) = rest)
      by (split; reflexivity).
    assert (Hthen : forall w2 (threw : bool),
              raf (host w2) = raf (host w) -> inflight (host w2) = rest ->
              raf (host (if threw then w2 else _scanFrame w2))
              + List.length (inflight (host (if threw then w2 else _scanFrame w2)))
              <= raf (host w) + List.length (req :: rest) + 0).
    { intros w2 threw A B. destruct threw.
      - rewrite A, B. cbn. lia.
      - destruct (scanFrame_loop w2) as (C & D). rewrite D, B. cbn. lia. }
    destruct o as [payload | error].
    + unfold on_fulfilled.
      destruct (_onDecode (scanner w0)) as [| |f|];
        try (apply (Hthen w0 false); reflexivity).
      destruct (reaction_offloop r (log (CallOnDecode f payload) w0)) as (A & B & _).
      apply Hthen; [rewrite A | rewrite B]; reflexivity.
    + unfold on_rejected.
      destruct (_active (scanner w0)); cbn [negb];
        [| apply (Hthen w0 false); reflexivity].
      destruct (error_message error) as [m|];
        [| apply (Hthen w0 true); reflexivity].
      match goal with
      | |- context [invoke_onDecodeError error r ?w1] =>
          assert (H1 : raf (host w1) = raf (host w) /\ inflight (host w1) = rest);
          [| destruct (invoke_onDecodeError_offloop error r w1) as (A & B);
             destruct (invoke_onDecodeError error r w1) as [w2 threw];
             cbn [fst] in A, B; destruct H1 as (C & D);
             apply Hthen; congruence ]
      end.
      destruct (Js.includes "service unavailable" m); [| split; reflexivity].
      unfold createQrEngine. destruct (existsb _ _); split; reflexivity.
  - destruct (start_settled_offloop w) as (A & B & _). rewrite A, B. lia.
  - destruct (elapse_offloop dt w) as (A & B & _). rewrite A, B. lia.
Qed.


(** X5.  The scan loop forks only on a [play] event: over any sequence of
    events, the number of live chains (frames requested and not yet run plus
    decode requests in flight) grows by at most the number of [play] events
    in it.  In particular a session that has seen one [play] event never has
    two decode requests in flight. *)
Theorem X5_scan_chains_bounded
    (pf : Platform) (v : Video) (doc_hidden : bool) (onDecode third : Js.value)
    (canvasSize : option Q) (mode : option string)
    (w : World) (evs : list event) :
  chains (run w evs) <= chains w + plays evs /\
  List.length (inflight (host (run w evs))) <= chains w + plays evs /\
  List.length
    (inflight (host (run (construct pf v doc_hidden onDecode third canvasSize mode) evs)))
  <= plays evs.
Proof.
  assert (H : forall evs w, chains (run w evs) <= chains w + plays evs).
  { clear. intro evs. induction evs as [|ev evs IH]; intro w; cbn [run fold_left].
    - unfold plays. cbn. lia.
    - specialize (IH (step w ev)). unfold run in IH.
      pose proof (step_chains w ev) as Hs.
      unfold plays in *. cbn [filter]. destruct (is_play ev); cbn [List.length]; lia. }
  split; [apply H | split].
  - specialize (H evs w). unfold chains in H at 1. lia.
  - specialize (H evs (construct pf v doc_hidden onDecode third canvasSize mode)).
    assert (C : chains (construct pf v doc_hidden onDecode third canvasSize mode) = 0).
    { unfold chains, construct, createQrEngine.
      destruct third; cbn; destruct (existsb _ _); reflexivity. }
    rewrite C in H. unfold chains in H at 1. lia.
Qed.

Lemma step_offloop_dead (w : World) (ev : event) :
  listening (host w) = false -> raf (host w) = 0 -> inflight (host w) = [] ->
  offloop w (step w ev).
Proof.
  intros Hl Hr Hq. destruct ev; cbn [step].
  - apply call_offloop.
  - apply flash_offloop.
  - apply (visibility_offloop hide w).
  - cbn. rewrite Hl. repeat split; auto.
  - rewrite Hl. apply offloop_refl.
  - repeat split; auto.
  - unfold animation_frame. rewrite Hr. apply offloop_refl.
  - unfold decode_settled. rewrite Hq. apply offloop_refl.
  - apply start_settled_offloop.
  - apply elapse_offloop.
Qed.

Lemma run_offloop_dead (evs : list event) (u : World) :
  listening (host u) = false -> raf (host u) = 0 -> inflight (host u) = [] ->
  listening (host (run u evs)) = false /\
  raf (host (run u evs)) = 0 /\
  inflight (host (run u evs)) = [] /\
  scans (run u evs) = scans u.
Proof.
  revert u. induction evs as [|ev evs IH]; intros u Hl Hr Hq; cbn [run fold_left].
  - auto.
  - destruct (step_offloop_dead u ev Hl Hr Hq) as (A & B & C & D).
    destruct (IH (step u ev) (D Hl) (eq_trans A Hr) (eq_trans B Hq))
      as (I1 & I2 & I3 & I4).
    unfold run in *. repeat split; try assumption. congruence.
Qed.

(** X6.  After [destroy()] on a session with no frame requested and no
    decode request in flight, the scan loop never runs again, whatever
    follows, a later [start()] included: the listeners are gone, so no
    [play] event reaches the session, no frame is requested and no decode
    request is made. *)
Theorem X6_destroy_ends_scan_loop (w : World) (evs : list event) :
  raf (host w) = 0 ->
  inflight (host w) = [] ->
  let w' := run (destroy w) evs in
  listening (host w') = false /\
  raf (host w') = 0 /\
  inflight (host w') = [] /\
  scans w' = scans w.
Proof.
  intros Hr Hq w'.
  assert (Dl : listening (host (destroy w)) = false).
  { unfold destroy, _postWorkerMessage, stop, pause, setTimeout.
    repeat (cbn; try break_match); reflexivity. }
  destruct (destroy_offloop w) as (Dr & Dq & Ds & _).
  rewrite Hr in Dr. rewrite Hq in Dq.
  destruct (run_offloop_dead evs (destroy w) Dl Dr Dq) as (I1 & I2 & I3 & I4).
  subst w'. repeat split; try assumption. congruence.
Qed.

Lemma X6_witness :
  raf (host Scenario.session) = 0 /\
  inflight (host Scenario.session) = [] /\
  listening (host (run (destroy Scenario.session)
                       [Call ApiStart; AcquireSettled; PlayEvent])) = false.
Proof.
  split; [reflexivity |]. split; [reflexivity |].
  exact (proj1 (X6_destroy_ends_scan_loop Scenario.session
                  [Call ApiStart; AcquireSettled; PlayEvent] eq_refl eq_refl)).
Defined.


End OffLoop.

(** ** What touches the camera *)

Section Camera.
Import QrScanner.

Lemma camera_kept_refl (w : World) : camera_kept w w.
Proof. repeat split. Qed.

Lemma camera_kept_trans (w1 w2 w3 : World) :
  camera_kept w1 w2 -> camera_kept w2 w3 -> camera_kept w1 w3.
Proof. unfold camera_kept. intuition congruence. Qed.

Lemma call_camera (a : api) (w : World) : camera_kept w (call a w).
Proof.
  unfold camera_kept.
  destruct a; cbn [call];
    unfold start, clearTimeout, destroy, setInversionMode, _postWorkerMessage,
      stop, pause, setTimeout; frame.
Qed.

Lemma reaction_camera (r : reaction) (w : World) : camera_kept w (run_reaction r w).
Proof.
  unfold run_reaction. generalize (re_calls r). intro calls. revert w.
  induction calls as [|a calls IH]; intro w; cbn.
  - apply camera_kept_refl.
  - eapply camera_kept_trans; [apply (call_camera a) | apply IH].
Qed.

Lemma scanFrame_camera (w : World) : camera_kept w (_scanFrame w).
Proof. unfold camera_kept, _scanFrame. frame. Qed.

Lemma decode_settled_camera (o : outcome) (r : reaction) (w : World) :
  camera_kept w (decode_settled o r w).
Proof.
  unfold decode_settled.
  destruct (inflight (host w)) as [|req rest]; [apply camera_kept_refl |].
  set (w0 := with_host (set_inflight rest) w).
  assert (H0 : camera_kept w w0) by (repeat split).
  clearbody w0.
  assert (Hthen : forall w2 (threw : bool), camera_kept w0 w2 ->
            camera_kept w (if threw then w2 else _scanFrame w2)).
  { intros w2 [|] H2.
    - exact (camera_kept_trans _ _ _ H0 H2).
    - exact (camera_kept_trans _ _ _ H0
               (camera_kept_trans _ _ _ H2 (scanFrame_camera w2))). }
  assert (Hcb : forall e w1, camera_kept w0 w1 ->
            camera_kept w0 (run_reaction r (log e w1))).
  { intros e w1 H1. eapply camera_kept_trans; [| apply reaction_camera].
    eapply camera_kept_trans; [exact H1 | repeat split]. }
  destruct o as [payload | error].
  - unfold on_fulfilled.
    destruct (_onDecode (scanner w0)) as [| |f|];
      try apply (Hthen w0 false (camera_kept_refl w0)).
    apply Hthen. apply Hcb. apply camera_kept_refl.
  - unfold on_rejected.
    destruct (_active (scanner w0)); cbn [negb];
      [| apply (Hthen w0 false (camera_kept_refl w0))].
    destruct (error_message error) as [m|];
      [| apply (Hthen w0 true (camera_kept_refl w0))].
    match goal with
    | |- context [invoke_onDecodeError error r ?w1] =>
        assert (H1 : camera_kept w0 w1)
    end.
    { destruct (Js.includes "service unavailable" m); [| apply camera_kept_refl].
      unfold camera_kept, createQrEngine. frame. }
    match goal with
    | |- context [invoke_onDecodeError error r ?w1] =>
        assert (H2 : camera_kept w0 (fst (invoke_onDecodeError error r w1)));
        [| destruct (invoke_onDecodeError error r w1) as [w2 threw];
           cbn [fst] in H2; apply Hthen; exact H2 ]
    end.
    unfold invoke_onDecodeError.
    match goal with
    | |- context [_onDecodeError (scanner ?w1)] =>
        destruct (_onDecodeError (scanner w1)) as [|[| |f|]]; cbn [fst];
        try exact H1
    end.
    + eapply camera_kept_trans; [exact H1 |].
      unfold camera_kept, default_onDecodeError. frame.
    + apply Hcb. exact H1.
Qed.

Lemma release_flash (w : World) :
  _flashOn (scanner (release w)) = _flashOn (scanner w).
Proof. unfold release. rewrite stop_tracks_closed. reflexivity. Qed.

Lemma elapse_flash (dt : nat) (w : World) :
  _flashOn (scanner (elapse dt w)) = _flashOn (scanner w).
Proof.
  unfold elapse.
  set (w1 := with_host _ (with_host _ w)).
  assert (H1 : _flashOn (scanner w1) = _flashOn (scanner w)) by reflexivity.
  clearbody w1. revert H1.
  generalize (filter (fun t : nat * nat =>
                        snd t <=? now (host (with_host (fun h => set_now (now h + dt) h) w)))
                     (timers (host (with_host (fun h => set_now (now h + dt) h) w)))).
  intro due. revert w1. induction due as [|d due IH]; intros w1 H1; cbn.
  - assumption.
  - apply IH. rewrite release_flash. exact H1.
Qed.

(** What one event other than a flash operation, a settled negotiation or
    the passing of time leaves alone. *)
Lemma step_camera (w : World) (ev : event) :
  match ev with
  | Flash _ _ =>
      stopped (host (step w ev)) = stopped (host w) /\
      srcObject (video (step w ev)) = srcObject (video w)
  | AcquireSettled =>
      _flashOn (scanner (step w ev)) = _flashOn (scanner w) /\
      stopped (host (step w ev)) = stopped (host w) /\
      (srcObject (video w) <> None -> srcObject (video (step w ev)) <> None)
  | Elapse _ => _flashOn (scanner (step w ev)) = _flashOn (scanner w)
  | _ => camera_kept w (step w ev)
  end.
Proof.
  destruct ev; cbn [step].
  - apply call_camera.
  - unfold flash, toggleFlash, turnFlashOn, turnFlashOff, _setFlash, hasFlash.
    destruct op; frame.
  - unfold _onVisibilityChange.
    set (w0 := with_host (set_hidden hide) w).
    assert (H0 : camera_kept w w0) by (repeat split).
    destruct (listening (host w0)); [| exact H0].
    destruct (hidden (host w0)).
    + exact (camera_kept_trans _ _ _ H0 (call_camera ApiPause w0)).
    + destruct (_active (scanner w0)); [| exact H0].
      exact (camera_kept_trans _ _ _ H0 (call_camera ApiStart w0)).
  - unfold camera_kept, _updateSourceRect. frame.
  - destruct (listening (host w)); [| apply camera_kept_refl].
    unfold _onPlay. eapply camera_kept_trans; [| apply scanFrame_camera].
    unfold camera_kept, _updateSourceRect. frame.
  - repeat split.
  - unfold camera_kept, animation_frame, _scanFrame. frame.
  - apply decode_settled_camera.
  - unfold start_settled.
    destruct (acquiring (host w)) as [|preferred rest]; [auto |].
    destruct (acquire _ preferred) as [[r guess] requests].
    destruct r as [stream | e]; unfold _setVideoMirror; cbn; repeat split; auto.
    discriminate.
  - apply elapse_flash.
Qed.

(** X7.  Only a flash operation changes what [isFlashOn()] returns.  In
    particular the value survives [pause()], [stop()] and the release of the
    camera, although stopping the tracks turns the torch off. *)
Theorem X7_flash_state_survives (w : World) (evs : list event) :
  existsb is_flash evs = false ->
  isFlashOn (run w evs) = isFlashOn w.
Proof.
  unfold isFlashOn. revert w.
  induction evs as [|ev evs IH]; intros w H; cbn [run fold_left]; [reflexivity |].
  cbn [existsb] in H. apply orb_false_iff in H. destruct H as [Hev Hevs].
  specialize (IH (step w ev) Hevs). unfold run in IH. rewrite IH.
  pose proof (step_camera w ev) as Hs.
  destruct ev; try discriminate Hev; try apply Hs.
Qed.

Lemma X7_witness :
  existsb is_flash [Call ApiPause; Elapse 500; Call ApiStart] = false /\
  isFlashOn (run Snapshot.running [Call ApiPause; Elapse 500; Call ApiStart])
  = isFlashOn Snapshot.running.
Proof.
  split; [reflexivity |].
  exact (X7_flash_state_survives Snapshot.running
           [Call ApiPause; Elapse 500; Call ApiStart] eq_refl).
Defined.


(** X8.  No method stops a track at once: the tracks are stopped only when
    time passes and the release timer fires.  Over any sequence of events
    without such a passage of time, no track is stopped and a stream that is
    attached stays attached ([pause()], [stop()] and [destroy()]
    included). *)
Theorem X8_tracks_stopped_only_by_timer (w : World) (evs : list event) :
  existsb is_elapse evs = false ->
  stopped (host (run w evs)) = stopped (host w) /\
  (srcObject (video w) <> None -> srcObject (video (run w evs)) <> None).
Proof.
  revert w.
  induction evs as [|ev evs IH]; intros w H; cbn [run fold_left]; [auto |].
  cbn [existsb] in H. apply orb_false_iff in H. destruct H as [Hev Hevs].
  destruct (IH (step w ev) Hevs) as [I1 I2]. unfold run in I1, I2.
  pose proof (step_camera w ev) as Hs.
  assert (K : stopped (host (step w ev)) = stopped (host w) /\
              (srcObject (video w) <> None -> srcObject (video (step w ev)) <> None)).
  { destruct ev; try discriminate Hev;
      try (destruct Hs as (_ & S2 & S3); split; [exact S2 | rewrite S3; auto]).
    - destruct Hs as (S2 & S3). split; [exact S2 | rewrite S3; auto].
    - destruct Hs as (_ & S2 & S3). split; assumption. }
  destruct K as [K1 K2]. split; [congruence | auto].
Qed.

Lemma X8_witness :
  existsb is_elapse [Call ApiStop; Call ApiDestroy; VisibilityChange true] = false /\
  stopped (host (run Snapshot.running
                     [Call ApiStop; Call ApiDestroy; VisibilityChange true]))
  = stopped (host Snapshot.running).
Proof.
  split; [reflexivity |].
  exact (proj1 (X8_tracks_stopped_only_by_timer Snapshot.running
                  [Call ApiStop; Call ApiDestroy; VisibilityChange true] eq_refl)).
Defined.


(** X9.  [hasFlash()] rejects in one case only: [ImageCapture] exists and
    no video track is attached.  Without [ImageCapture] it answers [false];
    when the capabilities cannot be read it answers [false] too, after a
    console warning; it answers [true] exactly when the capabilities list
    ['flash'].  It changes neither the session nor the video. *)
Theorem X9_hasFlash_outcomes (hw : Torch) (w : World) :
  scanner (snd (hasFlash hw w)) = scanner w /\
  video (snd (hasFlash hw w)) = video w /\
  match fst (hasFlash hw w) with
  | Err e =>
      e = Js.ErrString "Camera not started or not available" /\
      imageCapture (platform w) = true /\
      first_video_track w = None
  | Ok true =>
      imageCapture (platform w) = true /\
      first_video_track w <> None /\
      exists modes, photoCapabilities hw = Ok modes /\ In "flash" modes
  | Ok false =>
      imageCapture (platform w) = false \/
      (first_video_track w <> None /\
       match photoCapabilities hw with
       | Ok modes => ~ In "flash" modes
       | Err error =>
           trace (host (snd (hasFlash hw w)))
           = trace (host w) ++ [ConsoleWarn error]
       end)
  end.
Proof.
  unfold hasFlash.
  destruct (imageCapture (platform w)) eqn:Hi; cbn; [| auto].
  destruct (first_video_track w) as [t|] eqn:Ht; cbn; [| auto].
  destruct (photoCapabilities hw) as [modes | error] eqn:Hc; cbn.
  - destruct (existsb (String.eqb "flash") modes) eqn:He.
    + repeat split; try discriminate.
      exists modes. split; [reflexivity |].
      apply existsb_exists in He. destruct He as (m & Hin & Heq).
      apply String.eqb_eq in Heq. subst m. exact Hin.
    + repeat split. right. split; [discriminate |].
      intro Hin. assert (existsb (String.eqb "flash") modes = true).
      { apply existsb_exists. exists "flash". split; [exact Hin | apply String.eqb_refl]. }
      congruence.
  - repeat split. right. split; [discriminate | reflexivity].
Qed.

End Camera.

(** * Properties of the static methods *)

Section Requests.
Import QrScanner Static.

(** X10.  [hasCamera()] never rejects: without [navigator.mediaDevices] and
    when [enumerateDevices()] rejects it answers [false]; it answers [true]
    exactly when a device of kind ['videoinput'] is listed. *)
Theorem X10_hasCamera_never_rejects
    (enumerateDevices : option (result (list string))) :
  exists answer,
    hasCamera enumerateDevices = Ok answer /\
    (answer = true
     <-> exists devices,
           enumerateDevices = Some (Ok devices) /\ In "videoinput" devices).
Proof.
  destruct enumerateDevices as [[devices | e] |]; cbn.
  - eexists. split; [reflexivity |]. rewrite existsb_exists. split.
    + intros (k & Hin & Heq). apply String.eqb_eq in Heq. subst k.
      exists devices. split; [reflexivity | exact Hin].
    + intros (devices' & Heq & Hin). injection Heq as <-.
      exists "videoinput". split; [exact Hin | apply String.eqb_refl].
  - exists false. split; [reflexivity |].
    split; [discriminate | intros (d & H & _); discriminate].
  - exists false. split; [reflexivity |].
    split; [discriminate | intros (d & H & _); discriminate].
Qed.

(** X11.  [_loadImage] creates an object URL exactly for a [File] or a
    [Blob], and revokes it exactly when the image then loads: after a load
    error, and while the load is pending, the URL stays.  Nothing is revoked
    that was not created. *)
Theorem X11_object_url_revoked_on_load
    (win : Window) (i : input) (image : ImageState) (ev : load_event) :
  let is_blob := match i with InFile | InBlob => true | _ => false end in
  let loaded :=
    match fst (_loadImage win i image ev) with Some (Ok _) => true | _ => false end in
  snd (_loadImage win i image ev)
  = (if is_blob then
       if loaded then [CreateObjectURL; RevokeObjectURL] else [CreateObjectURL]
     else []) /\
  (In RevokeObjectURL (snd (_loadImage win i image ev))
   <-> is_blob = true /\ loaded = true).
Proof.
  cbv zeta.
  assert (R : forall l : list url_action,
             l = [CreateObjectURL] \/ l = [] -> ~ In RevokeObjectURL l).
  { intros l [-> | ->] H; cbn in H; intuition discriminate. }
  destruct i; cbn;
    try (split; [reflexivity | split; [intro H; exfalso; exact H | intros [H _]; discriminate H]]);
    try (destruct (has_ImageBitmap win)); try (destruct (has_OffscreenCanvas win));
    cbn;
    try (split; [reflexivity | split; [intro H; exfalso; exact H | intros [H _]; discriminate H]]).
  all: destruct (_awaitImageLoad image ev) as [[u | e] |]; cbn;
    (split; [reflexivity |]);
    (split; [intro H; try (split; reflexivity); exfalso; intuition discriminate
            | intros [H1 H2]; try discriminate; auto]).
Qed.

Lemma worker_settled_stays (q : WorkerRequest) (evs : list worker_event) :
  wr_message q = false -> wr_error q = false -> wr_timeout q = None ->
  worker_run q evs = q.
Proof.
  intros Hm He Ht. induction evs as [|ev evs IH]; [reflexivity |].
  cbn [worker_run fold_left].
  assert (E : worker_step q ev = q).
  { destruct ev; cbn; rewrite ?Hm, ?He, ?Ht; reflexivity. }
  rewrite E. exact IH.
Qed.

(** A pending request with [budget] ms left on its timeout. *)
Lemma worker_run_pending (evs : list worker_event) (budget : N) :
  (0 < budget)%N ->
  let q := worker_run
             {| wr_message := true; wr_error := true;
                wr_timeout := Some budget; wr_outcome := None |} evs in
  match wr_outcome q with
  | None =>
      wr_message q = true /\ wr_error q = true /\
      wr_timeout q = Some (budget - worker_elapsed evs)%N /\
      (worker_elapsed evs < budget)%N
  | Some (Ok _) =>
      wr_message q = false /\ wr_error q = false /\ wr_timeout q = None
  | Some (Err e) =>
      wr_message q = false /\ wr_error q = false /\ wr_timeout q = None /\
      request_error e
  end.
Proof.
  revert budget. induction evs as [|ev evs IH]; intros budget Hb; cbn zeta.
  - cbn. repeat split; try reflexivity; [f_equal; lia | lia].
  - cbn [worker_run fold_left].
    assert (Settled : forall r,
              (forall e, r = Err e -> request_error e) ->
              match wr_outcome (worker_run
                      {| wr_message := false; wr_error := false;
                         wr_timeout := None; wr_outcome := Some r |} evs) with
              | None => False
              | Some (Ok _) => True
              | Some (Err e) => request_error e
              end).
    { intros r Hr. rewrite worker_settled_stays by reflexivity. cbn.
      destruct r; [exact I | apply Hr; reflexivity]. }
    assert (Shape : forall r,
              (forall e, r = Err e -> request_error e) ->
              let q := worker_run
                      {| wr_message := false; wr_error := false;
                         wr_timeout := None; wr_outcome := Some r |} evs in
              match wr_outcome q with
              | None =>
                  wr_message q = true /\ wr_error q = true /\
                  wr_timeout q = Some (budget - worker_elapsed (ev :: evs))%N /\
                  (worker_elapsed (ev :: evs) < budget)%N
              | Some (Ok _) =>
                  wr_message q = false /\ wr_error q = false /\ wr_timeout q = None
              | Some (Err e) =>
                  wr_message q = false /\ wr_error q = false /\ wr_timeout q = None /\
                  request_error e
              end).
    { intros r Hr. cbv zeta. rewrite worker_settled_stays by reflexivity. cbn.
      destruct r; repeat split. apply Hr. reflexivity. }
    destruct ev as [type data | e | dt]; cbn [worker_step wr_message wr_error wr_timeout].
    + unfold onMessage. destruct (negb (String.eqb type "qrResult")).
      * specialize (IH budget Hb). cbn zeta in IH. cbn [worker_elapsed fold_right].
        exact IH.
      * cbn [wr_outcome settle]. apply Shape.
        intros e He. destruct data; [discriminate |]. injection He as <-.
        left. reflexivity.
    + unfold onError. cbn [wr_outcome settle]. apply Shape.
      intros e' He. injection He as <-. right. eexists. reflexivity.
    + destruct (budget <=? dt)%N eqn:Hd.
      * unfold onError. cbn [wr_outcome settle]. apply Shape.
        intros e' He. injection He as <-. right. eexists. reflexivity.
      * apply N.leb_gt in Hd.
        specialize (IH (budget - dt)%N ltac:(lia)). cbn zeta in IH.
        cbn [worker_elapsed fold_right].
        fold (worker_elapsed evs).
        clear Settled Shape.
        match goal with
        | |- context [fold_left worker_step evs ?q0] =>
            change (fold_left worker_step evs q0)
              with (worker_run
                      {| wr_message := true; wr_error := true;
                         wr_timeout := Some (budget - dt)%N; wr_outcome := None |}
                      evs)
        end.
        set (q' := worker_run
                     {| wr_message := true; wr_error := true;
                        wr_timeout := Some (budget - dt)%N; wr_outcome := None |}
                     evs) in *.
        clearbody q'.
        destruct (wr_outcome q') as [[d | e] |]; try exact IH.
        destruct IH as (I1 & I2 & I3 & I4). repeat split; try assumption.
        -- rewrite I3. f_equal. lia.
        -- lia.
Qed.

(** X12.  A decode request to a worker settles once and cleans up after
    itself.  While it is pending both listeners are attached and the timeout
    runs; once it has settled both listeners are removed and the timeout is
    cleared, and no later message, error or passing of time changes it.  It
    is never pending after 10 s. *)
Theorem X12_worker_request_settles_once (evs later : list worker_event) :
  let q := worker_run worker_request evs in
  match wr_outcome q with
  | None =>
      wr_message q = true /\ wr_error q = true /\
      wr_timeout q = Some (10000 - worker_elapsed evs)%N /\
      (worker_elapsed evs < 10000)%N
  | Some _ =>
      wr_message q = false /\ wr_error q = false /\ wr_timeout q = None /\
      worker_run q later = q
  end.
Proof.
  cbv zeta.
  pose proof (worker_run_pending evs 10000%N ltac:(lia)) as H. cbv zeta in H.
  fold worker_request in H.
  destruct (wr_outcome (worker_run worker_request evs)) as [[d | e] |] eqn:Ho.
  - destruct H as (H1 & H2 & H3). repeat split; try assumption.
    apply worker_settled_stays; assumption.
  - destruct H as (H1 & H2 & H3 & _). repeat split; try assumption.
    apply worker_settled_stays; assumption.
  - exact H.
Qed.


Lemma native_outcome_stable (evs : list native_event) (q : NativeRequest)
    (r : result string) :
  nr_outcome q = Some r -> nr_outcome (native_run q evs) = Some r.
Proof.
  revert q. induction evs as [|ev evs IH]; intros q H; [exact H |].
  cbn [native_run fold_left]. apply IH.
  destruct ev as [rawValues | e | dt]; cbn.
  - destruct (nr_detected q); [exact H |]. cbn. rewrite H. reflexivity.
  - destruct (nr_detected q); [exact H |]. cbn.
    destruct (native_error_message e); [rewrite H; reflexivity | exact H].
  - destruct (nr_timeout q) as [remaining |]; [| exact H].
    destruct (remaining <=? dt)%N; cbn; [rewrite H; reflexivity | exact H].
Qed.

Lemma native_detected_clears_timeout (evs : list native_event) (q : NativeRequest) :
  (nr_detected q = true -> nr_timeout q = None) ->
  nr_detected (native_run q evs) = true -> nr_timeout (native_run q evs) = None.
Proof.
  revert q. induction evs as [|ev evs IH]; intros q H; [exact H |].
  cbn [native_run fold_left]. apply IH.
  destruct ev as [rawValues | e | dt]; cbn.
  - destruct (nr_detected q) eqn:Hd; [intros _; apply H; reflexivity | reflexivity].
  - destruct (nr_detected q) eqn:Hd; [intros _; apply H; reflexivity | reflexivity].
  - destruct (nr_timeout q) as [remaining |] eqn:Ht; [| rewrite Ht; exact H].
    destruct (remaining <=? dt)%N; cbn; [reflexivity |].
    intro Hd. specialize (H Hd). discriminate H.
Qed.



Lemma native_run_deadline (evs : list native_event) (budget : N) :
  (0 < budget)%N ->
  (forall e, In (NFailed e) evs -> native_error_message e <> None) ->
  (budget <= native_elapsed evs)%N ->
  nr_outcome (native_run
                {| nr_timeout := Some budget; nr_detected := false;
                   nr_outcome := None |} evs) <> None.
Proof.
  revert budget. induction evs as [|ev evs IH]; intros budget Hpos Hgood Hb.
  - change (native_elapsed []) with 0%N in Hb. lia.
  - cbn [native_run fold_left].
    destruct ev as [rawValues | e | dt]; cbn.
    + match goal with
      | |- nr_outcome (fold_left native_step evs ?q) <> None =>
          change (nr_outcome (native_run q evs) <> None);
          rewrite (native_outcome_stable evs q _ eq_refl)
      end.
      discriminate.
    + destruct (native_error_message e) as [m |] eqn:Hm.
      * match goal with
        | |- nr_outcome (fold_left native_step evs ?q) <> None =>
            change (nr_outcome (native_run q evs) <> None);
            rewrite (native_outcome_stable evs q _ eq_refl)
        end.
        discriminate.
      * exfalso. apply (Hgood e); [left; reflexivity | exact Hm].
    + change (native_elapsed (NElapse dt :: evs))
        with (dt + native_elapsed evs)%N in Hb.
      destruct (budget <=? dt)%N eqn:Hle; cbn.
      * match goal with
        | |- nr_outcome (fold_left native_step evs ?q) <> None =>
            change (nr_outcome (native_run q evs) <> None);
            rewrite (native_outcome_stable evs q _ eq_refl)
        end.
        discriminate.
      * apply N.leb_gt in Hle. apply IH.
        -- lia.
        -- intros e He. apply Hgood. right. exact He.
        -- lia.
Qed.

Lemma native_silent_failure (evs : list native_event) (q : NativeRequest) :
  nr_timeout q = None -> nr_detected q = true -> nr_outcome q = None ->
  nr_outcome (native_run q evs) = None.
Proof.
  revert q. induction evs as [|ev evs IH]; intros q Ht Hd Ho; [exact Ho |].
  cbn [native_run fold_left].
  assert (E : native_step q ev = q).
  { destruct ev as [rawValues | e | dt]; cbn.
    - rewrite Hd. reflexivity.
    - rewrite Hd. reflexivity.
    - rewrite Ht. reflexivity. }
  rewrite E. apply IH; assumption.
Qed.

(** X13.  A decode request to a native detector keeps its first
    settlement; once [detect] has settled the timeout is cleared.  When every
    failure of [detect] carries a value the handler can read a message off,
    the request has settled by the time 10 s have passed.  When [detect]
    fails first with [undefined], the handler throws before it rejects and
    the timeout is cleared after it: the request never settles. *)
Theorem X13_native_request_settlement (evs later : list native_event) :
  let q := native_run native_request evs in
  (forall r, nr_outcome q = Some r -> nr_outcome (native_run q later) = Some r) /\
  (nr_detected q = true -> nr_timeout q = None) /\
  ((forall e, In (NFailed e) evs -> native_error_message e <> None) ->
   (10000 <= native_elapsed evs)%N -> nr_outcome q <> None) /\
  nr_outcome (native_run native_request (NFailed ThUndefined :: evs)) = None.
Proof.
  cbv zeta. repeat split.
  - intros r. apply native_outcome_stable.
  - apply native_detected_clears_timeout. cbn. discriminate.
  - intros Hgood Hb. apply native_run_deadline; [lia | exact Hgood | exact Hb].
  - cbn [native_run fold_left]. apply native_silent_failure; reflexivity.
Qed.

End Requests.

(** * Properties of [scanImage] *)

Section ScanImage.

Import QrScanner Static.

(** Case analysis over both passes of [scanImage]: what the loads, the
    drawing and the requests came to. *)
Ltac passes i first second :=
  unfold scanImage, scanImage_once, attempt, finally_close, is_Worker;
  generalize (fst (_loadImage (env_window first) i (env_image first) (env_load first)));
  generalize (fst (_loadImage (env_window second) i (env_image second) (env_load second)));
  generalize (wr_outcome (worker_run worker_request (env_worker first)));
  generalize (wr_outcome (worker_run worker_request (env_worker second)));
  generalize (nr_outcome (native_run native_request (env_native first)));
  generalize (nr_outcome (native_run native_request (env_native second)));
  generalize (env_draw first); generalize (env_draw second);
  intros D2 D1 N2 N1 W2 W1 L2 L1.

(** X14.  A worker the caller hands to [scanImage] is only asked to decode:
    whatever the image, the source rectangle, the fallback and the outcome
    of the requests, the call builds no engine and posts nothing but at
    most two ['decode'] messages; it neither sets the inversion mode of the
    worker nor closes it. *)
Theorem X14_external_worker_left_alone (pf : Platform) (i : input)
    (sourceRect : option Rect.t) (k : nat) (alsoTryWithoutSourceRect : bool)
    (first second : Environment) (h : Host) :
  let h' := snd (scanImage pf i sourceRect (Some (WorkerEngine k))
                   alsoTryWithoutSourceRect first second h) in
  next_engine h' = next_engine h /\
  exists n, n <= 2 /\ trace h' = trace h ++ repeat (PostMessage k "decode") n.
Proof.
  cbv zeta. passes i first second.
  destruct L1 as [[[] | e1] |], D1 as [m1 |], W1 as [[d1 | x1] |],
           sourceRect as [rect |], alsoTryWithoutSourceRect,
           L2 as [[[] | e2] |], D2 as [m2 |], W2 as [[d2 | x2] |];
    cbn; (split; [reflexivity |]);
    first [ exists 0; split; [lia | cbn; rewrite app_nil_r; reflexivity]
          | exists 1; split; [lia | reflexivity]
          | exists 2; split; [lia | cbn; rewrite <- app_assoc; reflexivity] ].
Qed.


Lemma createQrEngine_worker (pf : Platform) (path : string) (h : Host) :
  native_advertised pf = false ->
  createQrEngine pf path h
  = (WorkerEngine (next_engine h),
     hlog (NewWorker (next_engine h) path) (set_next_engine (S (next_engine h)) h)).
Proof.
  unfold native_advertised, createQrEngine. intro H.
  destruct (barcodeDetector pf) as [formats |]; [rewrite H |]; reflexivity.
Qed.




(** X16.  When the image fails to load, the worker [scanImage] has built
    for the call is abandoned: the variable the final handler reads was
    never assigned, so the worker gets no message at all, not even
    ['close'], whatever the fallback does afterwards. *)
Theorem X16_worker_abandoned_when_load_fails (pf : Platform) (i : input)
    (sourceRect : option Rect.t) (alsoTryWithoutSourceRect : bool)
    (first second : Environment) (h : Host) (e : Js.error) :
  native_advertised pf = false ->
  fst (_loadImage (env_window first) i (env_image first) (env_load first))
  = Some (Err e) ->
  let n := next_engine h in
  let h' := snd (scanImage pf i sourceRect None alsoTryWithoutSourceRect
                   first second h) in
  exists rest,
    trace h' = trace h ++ NewWorker n WORKER_PATH :: rest /\
    forall type, ~ In (PostMessage n type) rest.
Proof.
  intros Hna Hload. cbv zeta. revert Hload. passes i first second.
  intros ->. rewrite (createQrEngine_worker _ _ _ Hna).
  set (n := next_engine h).
  destruct sourceRect as [rect |], alsoTryWithoutSourceRect; cbn;
    try (exists []; split; [reflexivity | intros type []]).
  rewrite (createQrEngine_worker _ _ _ Hna). cbn. fold n.
  destruct L2 as [[[] | e2] |], D2 as [m2 |], W2 as [[d2 | x2] |]; cbn;
    rewrite <- ?app_assoc; cbn;
    (eexists; split; [reflexivity |]);
    intros type Hin; cbn in Hin;
    repeat (destruct Hin as [Hin | Hin];
            [try discriminate Hin; injection Hin; intros; lia |]);
    exact Hin.
Qed.

Lemma X16_witness :
  native_advertised Snapshot.plain_page = false /\
  fst (_loadImage (env_window Snapshot.no_code) InOther
         (env_image Snapshot.no_code) (env_load Snapshot.no_code))
  = Some (Err (Js.ErrString "Unsupported image type.")) /\
  exists rest,
    trace (snd (scanImage Snapshot.plain_page InOther None None false
                  Snapshot.no_code Snapshot.code_found Snapshot.fresh_host))
    = trace Snapshot.fresh_host
      ++ NewWorker (next_engine Snapshot.fresh_host) WORKER_PATH :: rest /\
    forall type, ~ In (PostMessage (next_engine Snapshot.fresh_host) type) rest.
Proof.
  split; [reflexivity |]. split; [reflexivity |].
  exact (X16_worker_abandoned_when_load_fails Snapshot.plain_page InOther
           None false Snapshot.no_code Snapshot.code_found Snapshot.fresh_host
           (Js.ErrString "Unsupported image type.") eq_refl eq_refl).
Defined.











Lemma includes_app (needle prefix hay : string) :
  Js.includes needle hay = true -> Js.includes needle (prefix ++ hay) = true.
Proof.
  intro H. induction prefix as [|c prefix IH]; [exact H |].
  cbn [String.append Js.includes]. rewrite IH. apply orb_true_r.
Qed.

(** X18.  A crash of the native detector reaches the session and makes it
    build a new engine.  When [detect] fails with a message that contains
    ['service unavailable'], the [scanImage] call of the scan loop rejects
    with ['Scanner error: '] followed by that message; an active session
    whose oldest request settles with this rejection replaces its engine by
    a newly built one. *)
Theorem X18_detector_crash_replaces_engine
    (w : World) (req : Request) (others : list Request) (k : nat)
    (env second : Environment) (e : thrown) (m : string)
    (rest : list native_event) (r : reaction) :
  inflight (host w) = req :: others ->
  req_engine req = NativeDetector k ->
  _active (scanner w) = true ->
  env_draw env = None ->
  env_native env = NFailed e :: rest ->
  native_error_message e = Some m ->
  Js.includes "service unavailable" m = true ->
  let error := Js.ErrString ("Scanner error: " ++ m) in
  let w' := step w (DecodeSettled (Rejected error) r) in
  fst (scanImage (platform w) InVideo (Some (req_rect req)) (Some (req_engine req))
         false env second (host w)) = Some (Err error) /\
  _qrEnginePromise (scanner w') = fresh_engine (platform w) (next_engine (host w)) /\
  next_engine (host w') = S (next_engine (host w)).
Proof.
  intros Hq He Ha Hd Hn Hm Hi error w'. split.
  - unfold scanImage, attempt, finally_close, is_Worker. rewrite He. cbn.
    rewrite Hd, Hn. cbn [native_run fold_left native_step native_request nr_detected].
    rewrite Hm.
    match goal with
    | |- context [nr_outcome (fold_left native_step rest ?q)] =>
        change (nr_outcome (fold_left native_step rest q))
          with (nr_outcome (native_run q rest));
        rewrite (native_outcome_stable rest q _ eq_refl)
    end.
    reflexivity.
  - pose proof (step_engine w (DecodeSettled (Rejected error) r)) as S.
    assert (R : replaces_engine w (DecodeSettled (Rejected error) r) = true).
    { unfold replaces_engine. rewrite Hq, Ha. unfold error, error_message.
      cbn [andb]. apply includes_app. exact Hi. }
    rewrite R in S. exact S.
Qed.

Lemma X18_witness :
  let w := Scenario.native_scanning in
  let e := ThObject "Barcode detection service unavailable." "NotSupportedError" in
  let m := "Barcode detection service unavailable." in
  inflight (host w) = [Snapshot.oldest_request] /\
  req_engine Snapshot.oldest_request = NativeDetector 0 /\
  _active (scanner w) = true /\
  env_draw Snapshot.crash = None /\
  env_native Snapshot.crash = [NFailed e] /\
  native_error_message e = Some m /\
  Js.includes "service unavailable" m = true /\
  next_engine
    (host (step w (DecodeSettled
                     (Rejected (Js.ErrString ("Scanner error: " ++ m)))
                     Scenario.quiet)))
  = S (next_engine (host w)).
Proof.
  cbv zeta.
  split; [reflexivity |]. split; [reflexivity |]. split; [reflexivity |].
  split; [reflexivity |]. split; [reflexivity |]. split; [reflexivity |].
  split; [reflexivity |].
  exact (proj2 (proj2 (X18_detector_crash_replaces_engine
                  Scenario.native_scanning Snapshot.oldest_request [] 0
                  Snapshot.crash Snapshot.crash
                  (ThObject "Barcode detection service unavailable." "NotSupportedError")
                  "Barcode detection service unavailable." [] Scenario.quiet
                  eq_refl eq_refl eq_refl eq_refl eq_refl eq_refl eq_refl))).
Defined.


End ScanImage.
